(** * text2cad-cli: the iteration engine of the CAD generation loop

    A shallow embedding of the response parser, the camera derivation, the
    render loop and the session operations of the TypeScript sources, one
    module per revision of the program:

    - [RevA]: src/unnamed/part_000
    - [RevB]: src/unnamed/part_001
    - [RevC]: src/index.ts, first program (regex views, all-or-nothing)
    - [RevD]: src/index.ts, second program (YAML views)

    JavaScript strings are sequences of code units; the embedding keeps the
    code units below 256 (Latin-1), as [list ascii].  The regular expressions
    of the source are written out as the string functions they denote. *)

From Stdlib Require Import String Ascii List ZArith NArith Lia Bool Arith DecimalString.
Import ListNotations.

Set Implicit Arguments.

(** ** JavaScript strings *)

Module Js.

Definition jsstring := list ascii.

Definition lit (s : string) : jsstring := list_ascii_of_string s.
Arguments lit s%_string.

Definition charCode (c : ascii) : N := N_of_ascii c.

Definition in_range (lo hi : N) (c : ascii) : bool :=
  (lo <=? charCode c)%N && (charCode c <=? hi)%N.

(** [\s] and the characters removed by [trim]: TAB, LF, VT, FF, CR, SP and
    NBSP are the members below U+0100. *)
Definition isSpace (c : ascii) : bool :=
  in_range 9 13 c || (charCode c =? 32)%N || (charCode c =? 160)%N.

(** [\d] *)
Definition isDigit (c : ascii) : bool := in_range 48 57 c.

Definition isUpperAZ (c : ascii) : bool := in_range 65 90 c.
Definition isLowerAZ (c : ascii) : bool := in_range 97 122 c.

(** [\w] *)
Definition isWord (c : ascii) : bool :=
  isUpperAZ c || isLowerAZ c || isDigit c || (charCode c =? 95)%N.

Definition shift (d : N) (c : ascii) : ascii := ascii_of_N (charCode c + d).
Definition unshift (d : N) (c : ascii) : ascii := ascii_of_N (charCode c - d).

(** [String.prototype.toLowerCase] on one Latin-1 code unit. *)
Definition lowerChar (c : ascii) : ascii :=
  if isUpperAZ c then shift 32 c
  else if (in_range 192 214 c || in_range 216 222 c) then shift 32 c
  else c.

Definition toLowerCase (s : jsstring) : jsstring := map lowerChar s.

(** Canonicalisation of the [i] flag: a code unit above 127 never folds onto
    an ASCII letter, so only a-z are folded. *)
Definition canon (c : ascii) : ascii :=
  if isLowerAZ c then unshift 32 c else c.

(** How a pattern character is compared with an input character. *)
Inductive flag := CaseSensitive | IgnoreCase.

Definition eqc (f : flag) (p c : ascii) : bool :=
  match f with
  | CaseSensitive => Ascii.eqb p c
  | IgnoreCase => Ascii.eqb (canon p) (canon c)
  end.

(** [strip p s]: [s] without a leading match of the literal [p]. *)
Fixpoint strip (f : flag) (p s : jsstring) : option jsstring :=
  match p with
  | [] => Some s
  | a :: p' =>
      match s with
      | [] => None
      | c :: s' => if eqc f a c then strip f p' s' else None
      end
  end.

Definition starts (f : flag) (p s : jsstring) : bool :=
  match strip f p s with Some _ => true | None => false end.

(** [search f p s]: the leftmost match of the literal [p] in [s], as the text
    before it and the text after it. *)
Fixpoint search (f : flag) (p s : jsstring) : option (jsstring * jsstring) :=
  match strip f p s with
  | Some rest => Some ([], rest)
  | None =>
      match s with
      | [] => None
      | c :: s' =>
          match search f p s' with
          | Some (a, b) => Some (c :: a, b)
          | None => None
          end
      end
  end.

Fixpoint dropSpaces (s : jsstring) : jsstring :=
  match s with
  | c :: s' => if isSpace c then dropSpaces s' else s
  | [] => []
  end.

(** [String.prototype.trim] *)
Definition trim (s : jsstring) : jsstring :=
  rev (dropSpaces (rev (dropSpaces s))).

(** [span ok s]: the longest prefix of [s] made of [ok] characters, and the
    rest: a greedy character-class repetition. *)
Fixpoint span (ok : ascii -> bool) (s : jsstring) : jsstring * jsstring :=
  match s with
  | c :: s' =>
      if ok c then let (a, b) := span ok s' in (c :: a, b) else ([], s)
  | [] => ([], [])
  end.

(** [String.prototype.split] with a regular expression that never matches
    the empty string.  [sep s] is the length of the match of the separator at
    the start of [s], if there is one.  [skip] counts the characters of a
    match still to be passed over, [cur] holds the current piece, reversed. *)
Fixpoint splitRe (sep : jsstring -> option nat) (skip : nat)
    (cur s : jsstring) : list jsstring :=
  match s with
  | [] => [rev cur]
  | c :: s' =>
      match skip with
      | S k => splitRe sep k cur s'
      | O =>
          match sep s with
          | Some n => rev cur :: splitRe sep (pred n) [] s'
          | None => splitRe sep 0 (c :: cur) s'
          end
      end
  end.

Definition split (sep : jsstring -> option nat) (s : jsstring) : list jsstring :=
  splitRe sep 0 [] s.

Definition nonEmpty (s : jsstring) : bool :=
  match s with [] => false | _ :: _ => true end.

(** [.filter(Boolean)] on an array of strings: the empty string is falsy. *)
Definition filterBoolean (l : list jsstring) : list jsstring :=
  filter nonEmpty l.

Definition spaces (s : jsstring) : nat := length (fst (span isSpace s)).

Definition isChar (n : N) (c : ascii) : bool := (charCode c =? n)%N.

(** The pattern "-\s*" at the start of [s]. *)
Definition sepDash (s : jsstring) : option nat :=
  match s with
  | c :: t => if isChar 45 c then Some (1 + spaces t) else None
  | [] => None
  end.

(** The entry separator of the [filter(Boolean)] splits, at the start of
    [s]: an optional group of a line feed and white space, then a
    dash, or the dash alone, and the white space after the dash. *)
Definition sepEntry (s : jsstring) : option nat :=
  match s with
  | c :: t =>
      if isChar 10 c then
        let (w, r) := span isSpace t in
        match r with
        | d :: u =>
            if isChar 45 d then Some (2 + length w + spaces u) else None
        | [] => None
        end
      else sepDash s
  | [] => None
  end.

(** The pattern "\s*,\s*" at the start of [s]. *)
Definition sepComma (s : jsstring) : option nat :=
  let (w, r) := span isSpace s in
  match r with
  | c :: t => if isChar 44 c then Some (length w + 1 + spaces t) else None
  | [] => None
  end.

(** The pattern ",\s*|\s+" at the start of [s]. *)
Definition sepCommaOrSpace (s : jsstring) : option nat :=
  match s with
  | c :: t =>
      if isChar 44 c then Some (1 + spaces t)
      else if isSpace c then Some (1 + spaces t)
      else None
  | [] => None
  end.

(** [String.prototype.match] with a pattern that is tried at every start
    position from the left: [m] is the match at the start of its argument. *)
Fixpoint scan (A : Type) (m : jsstring -> option A) (s : jsstring) : option A :=
  match m s with
  | Some x => Some x
  | None =>
      match s with
      | [] => None
      | _ :: s' => scan m s'
      end
  end.

Definition bind (A B : Type) (o : option A) (k : A -> option B) : option B :=
  match o with Some x => k x | None => None end.

End Js.

(** ** JavaScript numbers

    [Number] keeps a number as the decimal it was written as: [Dec neg m e]
    stands for the double nearest to (-1)^neg * m * 10^e, and whether a
    string converts to NaN and the sign of the result do not depend on the
    rounding.  [parseInt], whose mathematical value is an integer, is
    rounded to the double it returns: the integer itself up to 2^53, the
    nearest integer with 53 significant bits above that (ties to even), and
    Infinity from 2^1024 on. *)

Module Num.
Import Js.

Inductive number :=
| NaN
| Infinity (neg : bool)
| Dec (neg : bool) (mant : N) (exp : Z).

Definition isNaN (n : number) : bool :=
  match n with NaN => true | _ => false end.

Definition ofZ (z : Z) : number := Dec (z <? 0)%Z (Z.abs_N z) 0.

Definition digitVal (c : ascii) : N := (charCode c - 48)%N.

Definition hexVal (c : ascii) : option N :=
  if isDigit c then Some (charCode c - 48)%N
  else if in_range 97 102 c then Some (charCode c - 87)%N
  else if in_range 65 70 c then Some (charCode c - 55)%N
  else None.

Definition inRadix (b : N) (c : ascii) : bool :=
  match hexVal c with Some v => (v <? b)%N | None => false end.

Definition radixVal (b : N) (ds : jsstring) : N :=
  fold_left (fun a c => match hexVal c with
                        | Some v => (b * a + v)%N
                        | None => a
                        end) ds 0%N.

Definition allDigits (b : N) (ds : jsstring) : bool :=
  nonEmpty ds && forallb (inRadix b) ds.

(** ExponentPart of StrDecimalLiteral, or nothing. *)
Definition exponent (s : jsstring) : option Z :=
  match s with
  | [] => Some 0%Z
  | e :: t =>
      if isChar 101 e || isChar 69 e then
        let '(neg, d) :=
          match t with
          | c :: u =>
              if isChar 45 c then (true, u)
              else if isChar 43 c then (false, u)
              else (false, t)
          | [] => (false, t)
          end in
        if allDigits 10 d then
          Some (if neg then - Z.of_N (radixVal 10 d) else Z.of_N (radixVal 10 d))%Z
        else None
      else None
  end.

Definition isInfinityLit (s : jsstring) : bool :=
  if list_eq_dec ascii_dec s (lit "Infinity") then true else false.

(** StrUnsignedDecimalLiteral *)
Definition unsignedDecimal (neg : bool) (s : jsstring) : number :=
  if isInfinityLit s then Infinity neg
  else
    let (ip, r) := span isDigit s in
    match r with
    | c :: t =>
        if isChar 46 c then
          let (fp, r') := span isDigit t in
          if nonEmpty ip || nonEmpty fp then
            match exponent r' with
            | Some e => Dec neg (radixVal 10 (ip ++ fp)) (e - Z.of_nat (length fp))
            | None => NaN
            end
          else NaN
        else if nonEmpty ip then
          match exponent r with
          | Some e => Dec neg (radixVal 10 ip) e
          | None => NaN
          end
        else NaN
    | [] => if nonEmpty ip then Dec neg (radixVal 10 ip) 0 else NaN
    end.

(** NonDecimalIntegerLiteral: 0x, 0o, 0b and their upper-case forms. *)
Definition nonDecimal (s : jsstring) : option number :=
  match s with
  | z :: p :: ds =>
      if isChar 48 z then
        let lit_in b := Some (if allDigits b ds then Dec false (radixVal b ds) 0
                              else NaN) in
        if isChar 120 p || isChar 88 p then lit_in 16%N
        else if isChar 111 p || isChar 79 p then lit_in 8%N
        else if isChar 98 p || isChar 66 p then lit_in 2%N
        else None
      else None
  | _ => None
  end.

(** [Number(s)]: StringToNumber. *)
Definition Number (s : jsstring) : number :=
  match trim s with
  | [] => Dec false 0 0
  | (c :: t) as u =>
      match nonDecimal u with
      | Some n => n
      | None =>
          if isChar 45 c then unsignedDecimal true t
          else if isChar 43 c then unsignedDecimal false t
          else unsignedDecimal false u
      end
  end.

(** The double nearest to the integer (-1)^neg * v, ties to even: the
    Number value of a mathematical integer. *)
Definition roundToDouble (neg : bool) (v : N) : number :=
  let bits := N.size v in
  if (bits <=? 53)%N then Dec neg v 0
  else
    let shift := (bits - 53)%N in
    let q := N.shiftr v shift in
    let r := (v - N.shiftl q shift)%N in
    let half := N.shiftl 1 (shift - 1) in
    let up := (half <? r)%N || ((r =? half)%N && N.odd q) in
    let w := N.shiftl (if up then q + 1 else q)%N shift in
    if (1024 <? N.size w)%N then Infinity neg else Dec neg w 0.

(** [parseInt(s, 10)]; without the radix argument a 0x prefix would select
    radix 16, which a string of decimal digits never has. *)
Definition parseInt (s : jsstring) : number :=
  let u := dropSpaces s in
  let '(neg, v) :=
    match u with
    | c :: t =>
        if isChar 45 c then (true, t)
        else if isChar 43 c then (false, t)
        else (false, u)
    | [] => (false, u)
    end in
  let ds := fst (span isDigit v) in
  if nonEmpty ds then roundToDouble neg (radixVal 10 ds) else NaN.

(** The sign-carrying integer a number denotes at the scale 10^[lo]. *)
Definition scaled (lo : Z) (neg : bool) (m : N) (e : Z) : Z :=
  ((if neg then -1 else 1) * Z.of_N m * 10 ^ (e - lo))%Z.

(** [a < b] on numbers; false when either is NaN. *)
Definition ltb (a b : number) : bool :=
  match a, b with
  | NaN, _ | _, NaN => false
  | Infinity na, Infinity nb => na && negb nb
  | Infinity na, Dec _ _ _ => na
  | Dec _ _ _, Infinity nb => negb nb
  | Dec na ma ea, Dec nb mb eb =>
      let lo := Z.min ea eb in
      (scaled lo na ma ea <? scaled lo nb mb eb)%Z
  end.

(** [Math.max(a, b)] *)
Definition max (a b : number) : number :=
  match a, b with
  | NaN, _ | _, NaN => NaN
  | _, _ => if ltb a b then b else a
  end.

(** [n > 0] *)
Definition positive (n : number) : bool := ltb (Dec false 0 0) n.

(** [n <= 0] *)
Definition nonPositive (n : number) : bool :=
  match n with
  | NaN => false
  | Infinity neg => neg
  | Dec neg m _ => (m =? 0)%N || neg
  end.

End Num.

(** ** Data model (the interfaces at the top of every revision) *)

Module Model.
Import Js Num.

Record ViewSpec := {
  name : jsstring;
  angle : list number;
  distance : number
}.

Record CADModel := {
  code : jsstring;
  views : list ViewSpec
}.

Record RenderResult := {
  view : jsstring;
  image : jsstring
}.

Record IterationState := {
  timestamp : jsstring;
  it_code : jsstring;
  renders : list RenderResult;
  feedback : option jsstring
}.

Record ProjectState := {
  id : jsstring;
  originalPrompt : jsstring;
  iterations : list IterationState
}.

(** A call either returns or throws [new Error(message)]. *)
Inductive result (A : Type) :=
| Ok (a : A)
| Throw (message : jsstring).
Arguments Throw {A} message.

Definition view3 (n : string) (a b c d : Z) : ViewSpec :=
  {| name := lit n; angle := [ofZ a; ofZ b; ofZ c]; distance := ofZ d |}.

End Model.

(** ** The patterns shared by the parsers *)

Module Pattern.
Import Js Num Model.

Definition LF : ascii := ascii_of_N 10.

(** The pattern "<openscad>([\s\S]*?)</openscad>": the text between the
    leftmost opening tag and the first closing tag after it. *)
Definition codeMatch (f : flag) (response : jsstring) : option jsstring :=
  bind (search f (lit "<openscad>") response) (fun '(_, rest) =>
  bind (search f (lit "</openscad>") rest) (fun '(body, _) => Some body)).

(** The lookahead of the views pattern: a blank line, "</" or the end. *)
Definition atTerminator (s : jsstring) : bool :=
  starts CaseSensitive [LF; LF] s || starts CaseSensitive (lit "</") s
  || negb (nonEmpty s).

(** The lazy group of the views pattern: up to the first terminator. *)
Fixpoint untilTerminator (s : jsstring) : jsstring :=
  if atTerminator s then []
  else match s with
       | [] => []
       | c :: s' => c :: untilTerminator s'
       end.

(** The views pattern, with the [i] flag: the text after the leftmost
    "views:" up to the first terminator. *)
Definition viewsMatch (response : jsstring) : option jsstring :=
  bind (search IgnoreCase (lit "views:") response) (fun '(_, rest) =>
  Some (untilTerminator rest)).

(** A key, white space, the separator (":" or, when [eq] is set, "="),
    white space; with the [i] flag. *)
Definition key (k : string) (eq : bool) (s : jsstring) : option jsstring :=
  bind (strip IgnoreCase (lit k) s) (fun r =>
  match dropSpaces r with
  | c :: t =>
      if isChar 58 c || (eq && isChar 61 c) then Some (dropSpaces t) else None
  | [] => None
  end).

(** An opening character, a non-empty run of characters other than the
    closing one, and the closing character. *)
Definition delimited (o c : N) (s : jsstring) : option jsstring :=
  match s with
  | q :: t =>
      if isChar o q then
        let (body, r) := span (fun x => negb (isChar c x)) t in
        if nonEmpty body && nonEmpty r then Some body else None
      else None
  | [] => None
  end.

(** name, ":", a double-quoted non-empty name *)
Definition quotedName (entry : jsstring) : option jsstring :=
  scan (fun s => bind (key "name" false s) (delimited 34 34)) entry.

(** angle, ":", a bracketed non-empty list *)
Definition bracketAngle (entry : jsstring) : option jsstring :=
  scan (fun s => bind (key "angle" false s) (delimited 91 93)) entry.

(** distance, the separator, one or more digits *)
Definition digitsDistance (eq : bool) (entry : jsstring) : option jsstring :=
  scan (fun s => bind (key "distance" eq s) (fun r =>
    let ds := fst (span isDigit r) in
    if nonEmpty ds then Some ds else None)) entry.

End Pattern.

(** ** Revision A (src/unnamed/part_000): the parser *)

Module RevA.
Import Js Num Model Pattern.

Definition MIN_VIEWS : nat := 3.

Definition defaultViews : list ViewSpec :=
  [ view3 "front" 0 0 0 150;
    view3 "top" 90 0 0 200;
    view3 "iso" 45 35 15 250 ].

Definition viewEntries (viewSection : jsstring) : list jsstring :=
  tl (split sepDash viewSection).

Definition angleParts (captured : jsstring) : list number :=
  filter (fun n => negb (isNaN n)) (map Number (split sepComma captured)).

(** The body of the loop over the entries: [None] is [continue]. *)
Definition parseEntry (entry : jsstring) : option ViewSpec :=
  match quotedName entry, bracketAngle entry with
  | Some n, Some a =>
      let parts := angleParts a in
      if length parts =? 3 then
        Some {| name := toLowerCase n;
                angle := parts;
                distance := match digitsDistance false entry with
                            | Some d => parseInt d
                            | None => ofZ 150
                            end |}
      else None
  | _, _ => None
  end.

(** One iteration: [views.push] when the entry is accepted. *)
Definition pushEntry (views : list ViewSpec) (entry : jsstring) : list ViewSpec :=
  match parseEntry entry with
  | Some v => views ++ [v]
  | None => views
  end.

(** The array [views] when the loop is over. *)
Definition parsedViews (response : jsstring) : list ViewSpec :=
  match viewsMatch response with
  | Some viewSection =>
      if nonEmpty viewSection
      then fold_left pushEntry (viewEntries viewSection) []
      else []
  | None => []
  end.

Definition parseResponse (response : jsstring) : result CADModel :=
  match codeMatch IgnoreCase response with
  | None => Throw (lit "Missing OpenSCAD code section")
  | Some c =>
      let views := parsedViews response in
      Ok {| code := trim c;
            views := if MIN_VIEWS <=? length views then views
                     else defaultViews |}
  end.

End RevA.


(** ** Revision B (src/unnamed/part_001): the parser *)

Module RevB.
Import Js Num Model Pattern.

Definition defaultViews : list ViewSpec :=
  [ view3 "front" 0 0 0 150;
    view3 "back" 180 0 0 150;
    view3 "left" 90 0 0 150;
    view3 "right" (-90) 0 0 150;
    view3 "top" 0 90 0 200;
    view3 "bottom" 0 (-90) 0 200;
    view3 "iso" 45 35 15 300 ].

Definition isQuote (c : ascii) : bool := isChar 34 c || isChar 39 c.

Definition isNameChar (c : ascii) : bool := isWord c || isChar 45 c.

Definition isAngleChar (c : ascii) : bool :=
  isChar 45 c || isDigit c || isSpace c || isChar 46 c || isChar 44 c.

(** name, ":" or "=", an optional quote, one or more word characters or
    dashes (an optional closing quote follows, outside the group). *)
Definition nameMatch (entry : jsstring) : option jsstring :=
  scan (fun s => bind (key "name" true s) (fun r =>
    let r1 := match r with
              | c :: t => if isQuote c then t else r
              | [] => r
              end in
    let n := fst (span isNameChar r1) in
    if nonEmpty n then Some n else None)) entry.

(** The last character of a run of white space, as a one-character group:
    what the angle group captures when the greedy white space before it has
    to give one character back. *)
Definition giveBack (w : jsstring) : option jsstring :=
  match rev w with
  | x :: _ => Some [x]
  | [] => None
  end.

Definition orElse (A : Type) (a b : option A) : option A :=
  match a with Some _ => a | None => b end.

(** angle, ":" or "=", white space, an optional "[", white space, and the
    group: one or more of dash, digit, white space, dot and comma. *)
Definition angleAt (s : jsstring) : option jsstring :=
  bind (strip IgnoreCase (lit "angle") s) (fun r =>
  match dropSpaces r with
  | c :: t =>
      if isChar 58 c || isChar 61 c then
        let (w2, t') := span isSpace t in
        match t' with
        | b :: u =>
            if isChar 91 b then
              let (w3, u') := span isSpace u in
              let g := fst (span isAngleChar u') in
              if nonEmpty g then Some g
              else orElse (giveBack w3) (giveBack w2)
            else
              let g := fst (span isAngleChar t') in
              if nonEmpty g then Some g else giveBack w2
        | [] => giveBack w2
        end
      else None
  | [] => None
  end).

Definition angleMatch (entry : jsstring) : option jsstring := scan angleAt entry.

Definition viewEntries (viewsSection : jsstring) : list jsstring :=
  filterBoolean (split sepEntry viewsSection).

Definition angleParts (captured : jsstring) : list number :=
  filter (fun n => negb (isNaN n)) (map Number (split sepCommaOrSpace captured)).

Definition showNat (n : nat) : jsstring :=
  lit (DecimalString.NilEmpty.string_of_uint (Nat.to_uint n)).

(** The body of the [try] block for the entry at [index]: the view pushed,
    or the message of the error thrown. *)
Definition parseEntry (index : nat) (entry : jsstring) : result ViewSpec :=
  match nameMatch entry with
  | None => Throw (lit "Missing name in view " ++ showNat (index + 1))
  | Some n =>
      match angleMatch entry with
      | None => Throw (lit "Missing angles in view " ++ showNat (index + 1))
      | Some a =>
          let parts := angleParts a in
          if length parts =? 3 then
            Ok {| name := toLowerCase n;
                  angle := parts;
                  distance := match digitsDistance true entry with
                              | Some d => parseInt d
                              | None => ofZ 150
                              end |}
          else Throw (lit "Invalid angles in view " ++ showNat (index + 1))
      end
  end.

(** The two arrays the loop fills. *)
Record acc := { views_ : list ViewSpec; viewErrors : list jsstring }.

Definition step (a : acc) (ie : nat * jsstring) : acc :=
  let (index, entry) := ie in
  match parseEntry index entry with
  | Ok v => {| views_ := views_ a ++ [v]; viewErrors := viewErrors a |}
  | Throw m =>
      {| views_ := views_ a;
         viewErrors := viewErrors a
                       ++ [lit "View " ++ showNat (index + 1) ++ lit ": " ++ m] |}
  end.

Definition indexed (A : Type) (l : list A) : list (nat * A) :=
  combine (seq 0 (length l)) l.

Definition parseViews (response : jsstring) : acc :=
  let empty := {| views_ := []; viewErrors := [] |} in
  match viewsMatch response with
  | Some viewsSection =>
      if nonEmpty viewsSection
      then fold_left step (indexed (viewEntries viewsSection)) empty
      else empty
  | None => empty
  end.

Definition parseResponse (response : jsstring) : result CADModel :=
  match codeMatch IgnoreCase response with
  | None => Throw (lit "Missing OpenSCAD code section")
  | Some c =>
      let views := views_ (parseViews response) in
      Ok {| code := trim c;
            views := if 3 <? length views then views else defaultViews |}
  end.

End RevB.

(** ** Revision C (src/index.ts, first program): the parser *)

Module RevC.
Import Js Num Model Pattern.

Definition defaultViews : list ViewSpec :=
  [ view3 "front" 0 0 0 100;
    view3 "iso" 45 35 0 100 ].

Definition viewEntries (viewsText : jsstring) : list jsstring :=
  filterBoolean (split sepEntry viewsText).

(** The callback of [viewEntries.map]: the view, or the error thrown. *)
Definition parseView (viewText : jsstring) : result ViewSpec :=
  match quotedName viewText, bracketAngle viewText with
  | Some n, Some a =>
      let parts := map Number (split sepComma a) in
      if negb (length parts =? 3) || existsb isNaN parts then
        Throw (lit "Invalid angle values: " ++ a)
      else
        Ok {| name := n;
              angle := parts;
              distance := match digitsDistance false viewText with
                          | Some d => parseInt d
                          | None => ofZ 100
                          end |}
  | _, _ => Throw (lit "Invalid view format - missing required fields")
  end.

(** [Array.prototype.map] with a callback that may throw: the first error
    ends the call. *)
Fixpoint mapViews (entries : list jsstring) : result (list ViewSpec) :=
  match entries with
  | [] => Ok []
  | e :: rest =>
      match parseView e with
      | Throw m => Throw m
      | Ok v =>
          match mapViews rest with
          | Ok vs => Ok (v :: vs)
          | Throw m => Throw m
          end
      end
  end.

Definition parseResponse (response : jsstring) : result CADModel :=
  match codeMatch CaseSensitive response with
  | None =>
      Throw (lit "Could not find OpenSCAD code section. Response must include <openscad> tags.")
  | Some c =>
      let views :=
        match viewsMatch response with
        | Some viewsText =>
            match mapViews (viewEntries viewsText) with
            | Ok vs => vs
            | Throw _ => defaultViews
            end
        | None => defaultViews
        end in
      Ok {| code := trim c; views := views |}
  end.

End RevC.

(** ** Revision D (src/index.ts, second program): the parser

    The views are read by the [yaml] package, which is not part of the
    repository: what it returns for a response, after the checks of the
    [forEach], is the parameter [yamlViews]. *)

Module RevD.
Import Js Num Model Pattern.

(** Whether the YAML pattern matches somewhere: "views:" and, after it, a
    line that starts with two spaces, a dash and a space; the end of the
    input closes the match when no blank line does. *)
Definition yamlMatches (response : jsstring) : bool :=
  match search CaseSensitive (lit "views:") response with
  | Some (_, rest) =>
      match search CaseSensitive (LF :: lit "  - ") rest with
      | Some _ => true
      | None => false
      end
  | None => false
  end.

Section Parser.

Variable yamlViews : jsstring -> result (list ViewSpec).

Definition parseResponse (response : jsstring) : result CADModel :=
  match codeMatch CaseSensitive response with
  | None =>
      Throw (lit "Could not find OpenSCAD code section. Response must include <openscad> tags.")
  | Some c =>
      if yamlMatches response then
        match yamlViews response with
        | Ok vs => Ok {| code := trim c; views := vs |}
        | Throw m =>
            Throw (lit "Failed to parse response: " ++ m ++ [LF; LF]
                   ++ lit "Please try the command again.")
        end
      else Throw (lit "Could not find properly formatted views section")
  end.

End Parser.

End RevD.

(** ** The renderer (class OpenSCADRenderer)

    The object holds [tempDir]; [disk] lists the scratch directories that
    exist.  The geometry kernel and the file operations of one view are the
    parameter [kernel]: for the view at a position of the loop it gives the
    image read back, or the message of the error thrown inside the [try].
    The directory and the model file made before the loop are taken to
    succeed. *)

Module Renderer.
Import Js Num Model Pattern.

Record renderer := {
  tempDir : option jsstring;
  disk : list jsstring
}.

Definition jsstring_dec : forall a b : jsstring, {a = b} + {a <> b} :=
  list_eq_dec ascii_dec.

Definition existsSync (d : jsstring) (r : renderer) : bool :=
  if in_dec jsstring_dec d (disk r) then true else false.

Definition rm (d : jsstring) (l : list jsstring) : list jsstring :=
  remove jsstring_dec d l.

(** [mkdir(d, { recursive: true })] *)
Definition mkdir (d : jsstring) (l : list jsstring) : list jsstring :=
  if in_dec jsstring_dec d l then l else d :: l.

(** [cleanup] of revisions A and B: [tempDir] is reset in every case. *)
Definition cleanup (r : renderer) : renderer :=
  match tempDir r with
  | Some d =>
      {| tempDir := None;
         disk := if existsSync d r then rm d (disk r) else disk r |}
  | None => {| tempDir := None; disk := disk r |}
  end.

(** [cleanup] of revisions C and D: [tempDir] is reset only with the
    removal. *)
Definition cleanupC (r : renderer) : renderer :=
  match tempDir r with
  | Some d =>
      if existsSync d r then {| tempDir := None; disk := rm d (disk r) |}
      else r
  | None => r
  end.

Definition scratchName (now : jsstring) : jsstring :=
  lit "/tmp/cad-forge-" ++ now.

Definition pushRender (renders : list RenderResult) (v : ViewSpec)
    (img : jsstring) : list RenderResult :=
  renders ++ [ {| view := name v; image := img |} ].

Section Loop.

(** The camera argument type of a revision and its derivation. *)
Variable Camera : Type.
Variable cameraParams : ViewSpec -> result Camera.

(** The message of the error thrown by the [catch] block. *)
Variable failure : ViewSpec -> jsstring -> jsstring.

(** The [cleanup] run by the [catch] block, if any. *)
Variable onCatch : renderer -> renderer.
Variable onReturn : renderer -> renderer.

Variable kernel : nat -> jsstring -> Camera -> ViewSpec -> result jsstring.

Variable source : jsstring.

(** The [for] loop from the view at position [i] on. *)
Fixpoint loop (r : renderer) (i : nat) (todo : list ViewSpec)
    (renders : list RenderResult) : renderer * result (list RenderResult) :=
  match todo with
  | [] => (onReturn r, Ok renders)
  | v :: rest =>
      match cameraParams v with
      | Throw m => (onCatch r, Throw (failure v m))
      | Ok cam =>
          match kernel i source cam v with
          | Throw m => (onCatch r, Throw (failure v m))
          | Ok img => loop r (S i) rest (pushRender renders v img)
          end
      end
  end.

End Loop.

(** *** Revision A *)

Record GimbalCamera := {
  translate : list number;
  rotate : list number;
  dist : number
}.

Definition baseDistance : number := ofZ 100.

(** [baseDistance * 1.2], which is the double 120. *)
Definition scaledBase : number := ofZ 120.

Definition nameIs (n : string) (v : ViewSpec) : bool :=
  if jsstring_dec (name v) (lit n) then true else false.

(** The [switch] on the view name; a missing angle component would print as
    "undefined", which the parser never produces. *)
Definition cameraParamsA (v : ViewSpec) : GimbalCamera :=
  let validatedDistance := Num.max (distance v) baseDistance in
  let zero := [ofZ 0; ofZ 0; ofZ 0] in
  if nameIs "front" v then
    {| translate := zero; rotate := [ofZ 0; ofZ 5; ofZ 0]; dist := baseDistance |}
  else if nameIs "top" v then
    {| translate := zero; rotate := [ofZ 90; ofZ 0; ofZ 10]; dist := baseDistance |}
  else if nameIs "iso" v then
    {| translate := [ofZ 20; ofZ 0; ofZ 0];
       rotate := [ofZ 35; ofZ 0; ofZ 25];
       dist := scaledBase |}
  else
    {| translate := zero;
       rotate := firstn 3 (angle v);
       dist := validatedDistance |}.

Section A.
Variable now : jsstring.
Variable kernel : nat -> jsstring -> GimbalCamera -> ViewSpec -> result jsstring.

Definition failureA (v : ViewSpec) (m : jsstring) : jsstring :=
  lit "Render failed: " ++ m.

Definition renderA (r : renderer) (model : CADModel)
  : renderer * result (list RenderResult) :=
  let r1 := cleanup r in
  let d := scratchName now in
  let r2 := {| tempDir := Some d; disk := mkdir d (disk r1) |} in
  loop (fun v => Ok (cameraParamsA v)) failureA cleanup cleanup kernel
       (code model) r2 0 (views model) [].
End A.

(** *** Revision B: the eye and centre are products of the distance with
    [Math.cos] and [Math.sin] of the angles; the camera is kept as the
    angle and distance it is computed from. *)

Record EyeCentre := {
  ec_angle : list number;
  ec_distance : number
}.

Definition cameraParamsB (v : ViewSpec) : EyeCentre :=
  {| ec_angle := angle v; ec_distance := distance v |}.

Section B.
Variable now : jsstring.
Variable kernel : nat -> jsstring -> EyeCentre -> ViewSpec -> result jsstring.

Definition failureB (v : ViewSpec) (m : jsstring) : jsstring :=
  lit "Failed to render " ++ name v ++ lit ": " ++ m.

Definition renderB (r : renderer) (model : CADModel)
  : renderer * result (list RenderResult) :=
  let r1 := cleanup r in
  let d := scratchName now in
  let r2 := {| tempDir := Some d; disk := mkdir d (disk r1) |} in
  loop (fun v => Ok (cameraParamsB v)) failureB cleanup cleanup kernel
       (code model) r2 0 (views model) [].
End B.

(** *** Revision C: the view is checked inside the [try]; the camera looks
    down from the distance. *)

Record EyeOnly := { eye_z : number }.

Definition cameraParamsC (v : ViewSpec) : result EyeOnly :=
  if negb (length (angle v) =? 3) then
    Throw (lit "Invalid angle array for view " ++ name v)
  else if nonPositive (distance v) then
    Throw (lit "Invalid distance value for view " ++ name v)
  else Ok {| eye_z := distance v |}.

Section C.
Variable now : jsstring.
Variable kernel : nat -> jsstring -> EyeOnly -> ViewSpec -> result jsstring.

Definition failureC (v : ViewSpec) (m : jsstring) : jsstring :=
  lit "Failed to render view " ++ name v ++ lit ": " ++ m.

Definition renderC (r : renderer) (model : CADModel)
  : renderer * result (list RenderResult) :=
  let r1 := cleanupC r in
  let d := scratchName now in
  let r2 := {| tempDir := Some d; disk := mkdir d (disk r1) |} in
  loop cameraParamsC failureC (fun r => r) cleanupC kernel
       (code model) r2 0 (views model) [].
End C.

End Renderer.

(** ** The session (class CADSession)

    [state] is the field of the object, [stateFile] the content of the file
    at the fixed path ([None]: no file), [sent] the requests made to the
    text-generation service so far.  The service, the JSON codec and the
    clock are parameters. *)

Module Session.
Import Js Num Model Pattern.

Inductive MessageContent :=
| TextContent (text : jsstring)
| ImageContent (data : jsstring).

Record session := {
  state : option ProjectState;
  stateFile : option jsstring;
  sent : list (list MessageContent)
}.

Definition createFirst (msg : string) : jsstring :=
  lit msg ++ lit " Use " ++ [ascii_of_N 34] ++ lit "create"
  ++ [ascii_of_N 34] ++ lit " first.".

Section Operations.

Variable parseJSON : jsstring -> option ProjectState.
Variable stringify : ProjectState -> jsstring.
Variable anthropic : list MessageContent -> jsstring.
Variable now : jsstring.
Variable parseResponse : jsstring -> result CADModel.

(** [loadState]: a missing file and a content that does not parse both
    throw. *)
Definition loadState (s : session) : option ProjectState :=
  bind (stateFile s) parseJSON.

Definition lastIteration (st : ProjectState) : option IterationState :=
  last (map Some (iterations st)) None.

(** [addIteration]: push the iteration, then [saveState]. *)
Definition addIteration (s : session) (st : ProjectState) (model : CADModel)
    (fb : option jsstring) : session :=
  let st' := {| id := id st;
                originalPrompt := originalPrompt st;
                iterations := iterations st
                  ++ [ {| timestamp := now; it_code := code model;
                          renders := []; feedback := fb |} ] |} in
  {| state := Some st'; stateFile := Some (stringify st'); sent := sent s |}.

(** [createModel] followed by [addIteration], as both callers do. *)
Definition createModel (s : session) (st : ProjectState)
    (content : list MessageContent) (fb : option jsstring)
  : session * result CADModel :=
  let s1 := {| state := Some st; stateFile := stateFile s;
               sent := sent s ++ [content] |} in
  match parseResponse (anthropic content) with
  | Throw m => (s1, Throw m)
  | Ok model => (addIteration s1 st model fb, Ok model)
  end.

Definition renderParts (rs : list RenderResult) (label : jsstring -> jsstring)
  : list MessageContent :=
  flat_map (fun r => [ImageContent (image r); TextContent (label (view r))]) rs.

Definition latestCode (st : ProjectState) : jsstring :=
  match lastIteration st with Some it => it_code it | None => [] end.

(** [formatIterationMessage] of revision A *)
Definition formatIterationMessageA (st : ProjectState) (fb : jsstring)
    (rs : list RenderResult) : list MessageContent :=
  [ TextContent (lit "Original Request: " ++ originalPrompt st ++ [LF; LF]
                 ++ lit "Feedback: " ++ fb ++ [LF; LF]
                 ++ lit "Current Code:" ++ [LF] ++ latestCode st ++ [LF; LF]
                 ++ lit "Please analyze these renders:") ]
  ++ renderParts rs (fun v => v ++ lit " view")
  ++ [ TextContent (lit "Provide improved OpenSCAD code maintaining the required format.") ].

(** [formatIterationMessage] of revisions B, C and D; the arrow before the
    view name is outside Latin-1 and is left out of the label. *)
Definition formatIterationMessageB (st : ProjectState) (fb : jsstring)
    (rs : list RenderResult) : list MessageContent :=
  [ TextContent (lit "Original request: " ++ originalPrompt st ++ [LF; LF]
                 ++ lit "Previous OpenSCAD code:" ++ [LF] ++ latestCode st
                 ++ [LF; LF] ++ lit "User feedback:" ++ [LF] ++ fb ++ [LF; LF]
                 ++ lit "Please analyze the following renders and make the requested improvements:") ]
  ++ renderParts rs (fun v => lit " " ++ v ++ lit " view")
  ++ [ TextContent (lit "Provide updated OpenSCAD code and view specifications following the standard format.") ].

(** [iterateModel] of revision A: the history must not be empty. *)
Definition iterateModelA (s : session) (fb : jsstring)
  : session * result CADModel :=
  match loadState s with
  | None => (s, Throw (lit "No existing session found"))
  | Some st =>
      let s1 := {| state := Some st; stateFile := stateFile s; sent := sent s |} in
      match lastIteration st with
      | None => (s1, Throw (lit "No previous model found"))
      | Some it =>
          createModel s1 st (formatIterationMessageA st fb (renders it)) (Some fb)
      end
  end.

(** [iterateModel] of revisions B, C and D: the latest iteration must have
    renders as well. *)
Definition iterateModelB (s : session) (fb : jsstring)
  : session * result CADModel :=
  match loadState s with
  | None => (s, Throw (createFirst "No existing CAD session found."))
  | Some st =>
      let s1 := {| state := Some st; stateFile := stateFile s; sent := sent s |} in
      match lastIteration st with
      | None => (s1, Throw (createFirst "No previous model found."))
      | Some it =>
          match renders it with
          | [] => (s1, Throw (lit "No renders found from previous iteration"))
          | _ :: _ =>
              createModel s1 st (formatIterationMessageB st fb (renders it))
                          (Some fb)
          end
      end
  end.

End Operations.

End Session.

Module TestInputs.
Import Js.

Definition nl (s : jsstring) : jsstring := s ++ [Pattern.LF].

Definition lines (l : list jsstring) : jsstring := concat (map nl l).

Definition DQ : ascii := ascii_of_N 34.

Definition quoted (s : jsstring) : jsstring := [DQ] ++ s ++ [DQ].

(** An entry in the form the system prompts show:
    a dash, the quoted name, the angle list and the distance. *)
Definition entry (n a d : string) : jsstring :=
  lit "- name: " ++ quoted (lit n) ++ lit " angle: " ++ lit a
  ++ lit " distance: " ++ lit d.

Definition withCode (rest : list jsstring) : jsstring :=
  lines ([ lit "<openscad>"; lit "cube(20);"; lit "</openscad>"; [] ] ++ rest).

(** The response shape the system prompt of revision A asks for. *)
Definition promptA : jsstring :=
  withCode [ lit "views:";
             entry "front" "[0,0,0]" "150";
             entry "top" "[90,0,0]" "200";
             entry "iso" "[45,35,15]" "250" ].

(** The response shape the system prompt of revision B asks for. *)
Definition promptB : jsstring :=
  withCode [ lit "views:";
             entry "front" "[0,0,0]" "150";
             entry "back" "[0,180,0]" "150";
             entry "left" "[0,90,0]" "150";
             entry "right" "[0,-90,0]" "150 ";
             entry "top" "[90,0,0]" "150";
             entry "bottom" "[-90,0,0]" "150";
             entry "iso" "[45,35,0]" "200" ].

(** Three entries, the first with the distance 0. *)
Definition zeroDistance : jsstring :=
  withCode [ lit "views:";
             entry "front" "[0,0,0]" "0";
             entry "top" "[90,0,0]" "200";
             entry "iso" "[45,35,15]" "250" ].

(** The Design parsed from [promptA]. *)
Definition cube : Model.CADModel :=
  {| Model.code := lit "cube(20);";
     Model.views := [ Model.view3 "front" 0 0 0 150;
                      Model.view3 "top" 90 0 0 200;
                      Model.view3 "iso" 45 35 15 250 ] |}.

(** A renderer that has not rendered yet, on a disk without scratch
    directories. *)
Definition fresh : Renderer.renderer :=
  {| Renderer.tempDir := None; Renderer.disk := [] |}.

Definition clock : jsstring := lit "1700000000000".

(** A project whose only iteration has not been rendered. *)
Definition unrendered : Model.ProjectState :=
  {| Model.id := lit "7f3c";
     Model.originalPrompt := lit "a 20mm cube";
     Model.iterations :=
       [ {| Model.timestamp := lit "2024-01-01T00:00:00.000Z";
            Model.it_code := lit "cube(20);";
            Model.renders := [];
            Model.feedback := None |} ] |}.

(** A JSON codec that tells documents apart by their number of
    iterations, and reads every document as [unrendered]. *)
Definition countIterations (st : Model.ProjectState) : jsstring :=
  RevB.showNat (length (Model.iterations st)).

Definition readUnrendered (doc : jsstring) : option Model.ProjectState :=
  Some unrendered.

Definition stored : Session.session :=
  {| Session.state := None;
     Session.stateFile := Some (countIterations unrendered);
     Session.sent := [] |}.

(** Two code sections. *)
Definition twoSections : jsstring :=
  lit "<openscad>" ++ lit " cube(1); " ++ lit "</openscad>"
  ++ lit " or <openscad>sphere(2);</openscad>".




(** A distance of 400 digits. *)
Definition longDigits : jsstring := repeat (ascii_of_N 57) 400.


End TestInputs.

(** ** Vocabulary of the specification *)

Module Spec.
Import Js Num Model Pattern.

(** The literal [p] matches at position [k] of [s]. *)
Definition occursAt (f : flag) (p s : jsstring) (k : nat) : Prop :=
  k <= length s /\ starts f p (skipn k s) = true.

Definition OPEN : jsstring := lit "<openscad>".
Definition CLOSE : jsstring := lit "</openscad>".

(** The response holds a delimited code section: an opening tag at some
    position and a closing tag at or after the end of that opening tag. *)
Definition hasCodeBlock (f : flag) (response : jsstring) : Prop :=
  exists i j, occursAt f OPEN response i /\ occursAt f CLOSE response j
              /\ i + length OPEN <= j.

(** [m] is an occurrence of the literal [p], in the letter case [f] allows. *)
Definition isTag (f : flag) (p m : jsstring) : Prop := strip f p m = Some [].

(** The literal [p] does not match at any position of [s] before [k]. *)
Definition noneBefore (f : flag) (p s : jsstring) (k : nat) : Prop :=
  forall j, j < k -> strip f p (skipn j s) = None.

(** The test behind [noneBefore] at one position. *)
Definition noMatch (f : flag) (p s : jsstring) (j : nat) : bool :=
  match strip f p (skipn j s) with None => true | Some _ => false end.

(** [body] is the content of the first code section of [response]: it
    follows the earliest opening tag and ends at the earliest closing tag
    after that tag.  What follows the closing tag is free, further code
    sections included. *)
Definition firstSection (f : flag) (response body : jsstring) : Prop :=
  exists pre o cl rest,
    response = pre ++ o ++ body ++ cl ++ rest
    /\ isTag f OPEN o /\ isTag f CLOSE cl
    /\ noneBefore f OPEN response (length pre)
    /\ noneBefore f CLOSE (body ++ cl ++ rest) (length body).

Definition VIEWS : jsstring := lit "views:".

(** [body] is the views section of [response]: it follows the earliest
    "views:" marker, holds no terminator (a blank line or "</"), and either
    ends the response or is followed by a terminator.  What comes after is
    free, further entries included. *)
Definition viewsSection (response body : jsstring) : Prop :=
  exists pre v rest,
    response = pre ++ v ++ body ++ rest
    /\ isTag IgnoreCase VIEWS v
    /\ noneBefore IgnoreCase VIEWS response (length pre)
    /\ (forall j, j < length body ->
         atTerminator (skipn j (body ++ rest)) = false)
    /\ atTerminator rest = true.

Definition throws (A : Type) (r : result A) : bool :=
  match r with Throw _ => true | Ok _ => false end.

Definition returns (A : Type) (r : result A) : bool := negb (throws r).

(** A number that is a non-negative integer or positive Infinity: what a
    run of decimal digits can convert to. *)
Definition nonNegativeDistance (n : number) : Prop :=
  (exists m, n = Dec false m 0) \/ n = Infinity false.

Definition numeric (n : number) : bool := negb (isNaN n).

(** The invariant of a view as the parsers establish it. *)
Definition validView (v : ViewSpec) : Prop :=
  name v <> []
  /\ length (angle v) = 3
  /\ forallb numeric (angle v) = true
  /\ nonNegativeDistance (distance v).

End Spec.

(** ** Further vocabulary: signs and dashes *)

Module Shape.
Import Js Num Model Pattern.

(** No character of [s] is the dash "-". *)
Definition dashFree (s : jsstring) : bool :=
  forallb (fun c => negb (isChar 45 c)) s.

(** The number carries a minus sign: a negative value, -0 or -Infinity. *)
Definition negative (n : number) : bool :=
  match n with
  | NaN => false
  | Infinity neg => neg
  | Dec neg _ _ => neg
  end.

Definition unsignedView (v : ViewSpec) : Prop :=
  dashFree (name v) = true /\ forallb (fun n => negb (negative n)) (angle v) = true.

End Shape.

(** ** The streamed response, session creation and the two commands *)

Module Cli.
Import Js Num Model Pattern Session Renderer.

(** The events of the response stream: a text delta, or any other event. *)
Inductive Chunk :=
| TextDelta (text : jsstring)
| OtherEvent.

(** The variables of the loop of [createModel] and what went to the
    terminal. *)
Record stream := {
  fullResponse : jsstring;
  lastChunkWasNewline : bool;
  stdout : jsstring
}.

Definition start : stream :=
  {| fullResponse := []; lastChunkWasNewline := false; stdout := [] |}.

Definition isNewline (text : jsstring) : bool :=
  if jsstring_dec text [LF] then true else false.

(** The loop body of part_000: every delta is written and appended. *)
Definition onChunkA (st : stream) (c : Chunk) : stream :=
  match c with
  | OtherEvent => st
  | TextDelta text =>
      {| fullResponse := fullResponse st ++ text;
         lastChunkWasNewline := lastChunkWasNewline st;
         stdout := stdout st ++ text |}
  end.

(** The loop body of part_001: a delta that is a lone line feed is written
    only when the delta before it was not one. *)
Definition onChunkB (st : stream) (c : Chunk) : stream :=
  match c with
  | OtherEvent => st
  | TextDelta text =>
      if isNewline text then
        {| fullResponse := fullResponse st ++ text;
           lastChunkWasNewline := true;
           stdout := if lastChunkWasNewline st then stdout st
                     else stdout st ++ text |}
      else
        {| fullResponse := fullResponse st ++ text;
           lastChunkWasNewline := false;
           stdout := stdout st ++ text |}
  end.

(** The loop and the [console.log()] after it. *)
Definition receiveA (chunks : list Chunk) : stream :=
  let st := fold_left onChunkA chunks start in
  {| fullResponse := fullResponse st;
     lastChunkWasNewline := lastChunkWasNewline st;
     stdout := stdout st ++ [LF] |}.

Definition receiveB (chunks : list Chunk) : stream :=
  let st := fold_left onChunkB chunks start in
  {| fullResponse := fullResponse st;
     lastChunkWasNewline := lastChunkWasNewline st;
     stdout := if lastChunkWasNewline st then stdout st
               else stdout st ++ [LF] |}.

(** The texts of the deltas, in order. *)
Definition deltas (chunks : list Chunk) : list jsstring :=
  flat_map (fun c => match c with
                     | TextDelta text => [text]
                     | OtherEvent => []
                     end) chunks.

(** [formatInitialPrompt] of part_001 and index.ts *)
Definition formatInitialPrompt (prompt : jsstring) : jsstring :=
  lit "Design a 3D model based on this description:" ++ [LF]
  ++ prompt ++ [LF; LF]
  ++ lit "IMPORTANT: Your response must follow this exact format:" ++ [LF; LF]
  ++ lit "<openscad>" ++ [LF]
  ++ lit "// OpenSCAD code here" ++ [LF]
  ++ lit "</openscad>" ++ [LF; LF]
  ++ lit "views:" ++ [LF]
  ++ lit "- name: " ++ [ascii_of_N 34] ++ lit "front" ++ [ascii_of_N 34] ++ [LF]
  ++ lit "  angle: [0, 0, 0]" ++ [LF]
  ++ lit "  distance: 100" ++ [LF]
  ++ lit "- name: " ++ [ascii_of_N 34] ++ lit "iso" ++ [ascii_of_N 34] ++ [LF]
  ++ lit "  angle: [45, 35, 0]" ++ [LF]
  ++ lit "  distance: 100" ++ [LF; LF]
  ++ lit "Do not include any other text between these sections.".

(** The assignment to the renders of the last iteration; [None] is the
    TypeError of an empty history. *)
Fixpoint setLastRenders (its : list IterationState) (rs : list RenderResult)
  : option (list IterationState) :=
  match its with
  | [] => None
  | it :: rest =>
      match rest with
      | [] => Some [ {| timestamp := timestamp it; it_code := it_code it;
                        renders := rs; feedback := feedback it |} ]
      | _ :: _ =>
          match setLastRenders rest rs with
          | Some rest' => Some (it :: rest')
          | None => None
          end
      end
  end.

Section Commands.

Variable parseJSON : jsstring -> option ProjectState.
Variable stringify : ProjectState -> jsstring.
Variable anthropic : list MessageContent -> jsstring.
Variable now : jsstring.
Variable uuid : jsstring.
Variable parseResponse : jsstring -> result CADModel.

(** The messages of the errors raised by the runtime: reading or parsing
    the state file, and assigning into a missing iteration. *)
Variable readError : jsstring.
Variable typeError : jsstring.

Definition newProject (prompt : jsstring) : ProjectState :=
  {| id := uuid; originalPrompt := prompt; iterations := [] |}.

(** [generateModel] of part_000: the prompt itself is the content, a string
    being one text part. *)
Definition generateModelA (s : session) (prompt : jsstring)
  : session * result CADModel :=
  createModel stringify anthropic now parseResponse s (newProject prompt)
    [TextContent prompt] None.

(** [generateModel] of part_001 and index.ts *)
Definition generateModelB (s : session) (prompt : jsstring)
  : session * result CADModel :=
  createModel stringify anthropic now parseResponse s (newProject prompt)
    [TextContent (formatInitialPrompt prompt)] None.

(** The end of both command actions: read the state file, put the renders
    on the last iteration, write the file. *)
Definition attachRenders (s : session) (rs : list RenderResult)
  : session * result unit :=
  match bind (stateFile s) parseJSON with
  | None => (s, Throw readError)
  | Some ps =>
      match setLastRenders (iterations ps) rs with
      | None => (s, Throw typeError)
      | Some its =>
          ({| state := state s;
              stateFile := Some (stringify {| id := id ps;
                                              originalPrompt := originalPrompt ps;
                                              iterations := its |});
              sent := sent s |}, Ok tt)
      end
  end.

(** A command action: the session operation, the rendering, the
    attachment; the first error ends it. *)
Definition action
    (operation : session -> session * result CADModel)
    (render : renderer -> CADModel -> renderer * result (list RenderResult))
    (s : session) (r : renderer) : session * renderer * result unit :=
  match operation s with
  | (s1, Throw m) => (s1, r, Throw m)
  | (s1, Ok model) =>
      match render r model with
      | (r1, Throw m) => (s1, r1, Throw m)
      | (r1, Ok rs) =>
          let (s2, out) := attachRenders s1 rs in (s2, r1, out)
      end
  end.

End Commands.

End Cli.

(** ** Further vocabulary: requests and iterations *)

Module Wire.
Import Js Num Model Pattern Session.

(** The image payloads of a request, in order. *)
Definition imagesOf (content : list MessageContent) : list jsstring :=
  flat_map (fun part => match part with
                        | ImageContent data => [data]
                        | TextContent _ => []
                        end) content.

(** The iteration that [addIteration] appends. *)
Definition appended (now : jsstring) (model : CADModel)
    (fb : option jsstring) : IterationState :=
  {| timestamp := now; it_code := code model; renders := []; feedback := fb |}.

(** [st] with one more iteration. *)
Definition extended (st : ProjectState) (it : IterationState) : ProjectState :=
  {| id := id st; originalPrompt := originalPrompt st;
     iterations := iterations st ++ [it] |}.

End Wire.

(** ** Further sample data *)

Module Fixtures.
Import Js Num Model Pattern Session.

Definition frontRender : RenderResult :=
  {| view := lit "front"; image := lit "iVBORw0KGgo=" |}.

(** A project whose only iteration has one render. *)
Definition rendered : ProjectState :=
  {| id := lit "7f3c";
     originalPrompt := lit "a 20mm cube";
     iterations :=
       [ {| timestamp := lit "2024-01-01T00:00:00.000Z";
            it_code := lit "cube(20);";
            renders := [frontRender];
            feedback := None |} ] |}.

Definition readRendered (doc : jsstring) : option ProjectState :=
  Some rendered.

Definition storedRendered : session :=
  {| state := None;
     stateFile := Some (TestInputs.countIterations rendered);
     sent := [] |}.

Definition firstStamp : jsstring := lit "2024-01-01T00:00:00.000Z".

End Fixtures.

(** ** Sample kernels *)

Module Kernels.
Import Js Num Model Pattern Renderer.

(** A kernel that renders every view. *)
Definition always (C : Type) (i : nat) (source : jsstring) (cam : C)
    (v : ViewSpec) : result jsstring := Ok (lit "png").

(** A kernel that fails at the second view of a call. *)
Definition failsSecond (C : Type) (i : nat) (source : jsstring) (cam : C)
    (v : ViewSpec) : result jsstring :=
  if i =? 1 then Throw (lit "boom") else Ok (lit "png").

(** What the check of a view in the first program of index.ts lets
    through: exactly 3 angles, and a distance that is above 0 or is NaN
    (the test "distance <= 0" is false for NaN). *)
Definition acceptedByC (v : ViewSpec) : Prop :=
  length (angle v) = 3
  /\ (positive (distance v) = true \/ isNaN (distance v) = true).

(** A renderer that still holds the scratch directory of an earlier call,
    on a disk with one more directory. *)
Definition stale : renderer :=
  {| tempDir := Some (lit "/tmp/cad-forge-1");
     disk := [lit "/tmp/cad-forge-1"; lit "/tmp/keep"] |}.

(** A Design whose second view has the distance 0. *)
Definition flat : CADModel :=
  {| code := lit "cube(20);";
     views := [ view3 "front" 0 0 0 150; view3 "top" 90 0 0 0 ] |}.

End Kernels.

(** ** Further vocabulary: the edges of a text and converted entries *)

Module Edges.
Import Js Num Model Pattern Spec.

(** Neither the first nor the last character of [s] is white space. *)
Definition trimmed (s : jsstring) : Prop :=
  forall c, hd_error s = Some c \/ hd_error (rev s) = Some c ->
            isSpace c = false.

(** [v] is the entry [e] as the first program of index.ts converts it: the
    quoted name as written, three numeric angles, the digits of the
    distance or 100. *)
Definition convertedC (e : jsstring) (v : ViewSpec) : Prop :=
  quotedName e = Some (name v)
  /\ length (angle v) = 3
  /\ forallb numeric (angle v) = true
  /\ distance v = match digitsDistance false e with
                  | Some d => parseInt d
                  | None => ofZ 100
                  end.

End Edges.

(** * Properties *)

(** ** Literal search *)

Module JsFacts.
Import Js Spec.

Lemma starts_strip f p s :
  starts f p s = true <-> exists r, strip f p s = Some r.
Proof.
  unfold starts. destruct (strip f p s) as [r|].
  - split; [eauto | reflexivity].
  - split; [discriminate | intros [r H]; discriminate].
Qed.

Lemma strip_skipn f p : forall s r,
  strip f p s = Some r -> r = skipn (length p) s /\ length p <= length s.
Proof.
  induction p as [|a p IH]; intros s r H; simpl in *.
  - inversion H; subst. split; [reflexivity | lia].
  - destruct s as [|c s]; [discriminate|].
    destruct (eqc f a c); [|discriminate].
    apply IH in H. simpl. split; [tauto | lia].
Qed.

Lemma search_some f p : forall s a b,
  search f p s = Some (a, b) ->
  a = firstn (length a) s
  /\ strip f p (skipn (length a) s) = Some b
  /\ forall k, k < length a -> strip f p (skipn k s) = None.
Proof.
  induction s as [|c s IH]; intros a b H; simpl in H.
  - destruct (strip f p []) as [r|] eqn:E; [|discriminate].
    inversion H; subst. simpl. repeat split; auto. intros k Hk; lia.
  - destruct (strip f p (c :: s)) as [r|] eqn:E.
    + inversion H; subst. simpl. repeat split; auto. intros k Hk; lia.
    + destruct (search f p s) as [[a' b']|] eqn:Es; [|discriminate].
      inversion H; subst. destruct (IH _ _ eq_refl) as (H1 & H2 & H3).
      simpl. repeat split.
      * f_equal. exact H1.
      * exact H2.
      * intros [|k] Hk; simpl; [exact E | apply H3; lia].
Qed.

Lemma search_none f p : forall s,
  search f p s = None -> forall k, strip f p (skipn k s) = None.
Proof.
  induction s as [|c s IH]; intros H k; simpl in H.
  - destruct (strip f p []) eqn:E; [discriminate|].
    destruct k; simpl; exact E.
  - destruct (strip f p (c :: s)) eqn:E; [discriminate|].
    destruct (search f p s) as [[a b]|] eqn:Es; [discriminate|].
    destruct k; simpl; [exact E | apply IH; reflexivity].
Qed.

Lemma search_found f p : forall s k,
  k <= length s -> strip f p (skipn k s) <> None ->
  exists a b, search f p s = Some (a, b) /\ length a <= k.
Proof.
  induction s as [|c s IH]; intros k Hk Hs; simpl.
  - destruct k; simpl in *; [|lia].
    destruct (strip f p []) as [r|]; [|congruence].
    exists [], r. split; [reflexivity | simpl; lia].
  - destruct (strip f p (c :: s)) as [r|] eqn:E.
    + exists [], r. split; [reflexivity | simpl; lia].
    + destruct k as [|k]; simpl in Hs; [congruence|].
      destruct (IH k) as (a & b & Hab & Hl); [simpl in Hk; lia | exact Hs |].
      rewrite Hab. exists (c :: a), b. split; [reflexivity | simpl; lia].
Qed.

Lemma search_is_some f p s :
  (exists k, occursAt f p s k) <-> search f p s <> None.
Proof.
  split.
  - intros (k & Hk & Hs). apply starts_strip in Hs. destruct Hs as [r Hr].
    destruct (search_found f p s Hk) as (a & b & H & _); [congruence|].
    congruence.
  - intros H. destruct (search f p s) as [[a b]|] eqn:E; [|congruence].
    apply search_some in E. destruct E as (Ha & Hb & _).
    exists (length a). split.
    + rewrite Ha at 1. rewrite length_firstn. lia.
    + apply starts_strip. eauto.
Qed.

End JsFacts.

(** ** The code block *)

Module CodeBlock.
Import Js Num Model Pattern Spec JsFacts.

Lemma occursAt_strip f p s k :
  occursAt f p s k -> strip f p (skipn k s) <> None.
Proof.
  intros [_ H]. apply starts_strip in H. destruct H as [r H]. congruence.
Qed.

Lemma strip_occursAt f p s k r :
  k <= length s -> strip f p (skipn k s) = Some r -> occursAt f p s k.
Proof.
  intros Hk H. split; [exact Hk | apply starts_strip; eauto].
Qed.

Lemma codeMatch_some f response body :
  codeMatch f response = Some body -> hasCodeBlock f response.
Proof.
  unfold codeMatch, bind. fold OPEN CLOSE.
  destruct (search f OPEN response) as [[a rest]|] eqn:E1; [|discriminate].
  destruct (search f CLOSE rest) as [[c t]|] eqn:E2; [|discriminate].
  intros _.
  apply search_some in E1. destruct E1 as (Ha & Hrest & _).
  apply search_some in E2. destruct E2 as (Hc & Ht & _).
  pose proof (strip_skipn _ _ _ Hrest) as [Hr Hl].
  pose proof (strip_skipn _ _ _ Ht) as [_ Hl2].
  rewrite length_skipn in Hl.
  assert (Hlr : length rest = length response - length a - length OPEN).
  { rewrite Hr, !length_skipn. reflexivity. }
  rewrite length_skipn in Hl2.
  assert (HO : length OPEN = 10) by reflexivity.
  assert (HC : length CLOSE = 11) by reflexivity.
  exists (length a), (length a + length OPEN + length c). repeat split.
  - lia.
  - apply starts_strip. eauto.
  - lia.
  - apply starts_strip. exists t.
    rewrite Hr, !skipn_skipn in Ht.
    rewrite <- Ht. do 2 f_equal. lia.
  - lia.
Qed.

Lemma codeMatch_none f response :
  codeMatch f response = None -> ~ hasCodeBlock f response.
Proof.
  unfold codeMatch, bind. fold OPEN CLOSE.
  intros H (i & j & Hi & Hj & Hij).
  destruct (search f OPEN response) as [[a rest]|] eqn:E1.
  - destruct (search f CLOSE rest) as [[c t]|] eqn:E2; [discriminate|].
    apply search_some in E1. destruct E1 as (Ha & Hrest & Hfirst).
    assert (Hai : length a <= i).
    { destruct (Nat.lt_ge_cases i (length a)) as [Hlt|]; [|assumption].
      apply Hfirst in Hlt. apply occursAt_strip in Hi. congruence. }
    pose proof (strip_skipn _ _ _ Hrest) as [Hr _].
    pose proof (search_none _ _ _ E2 (j - (length a + length OPEN))) as Hn.
    rewrite Hr, !skipn_skipn in Hn.
    apply occursAt_strip in Hj. apply Hj. rewrite <- Hn.
    do 2 f_equal. lia.
  - pose proof (search_none _ _ _ E1 i) as Hn.
    apply occursAt_strip in Hi. congruence.
Qed.

Lemma codeMatch_iff f response :
  codeMatch f response = None <-> ~ hasCodeBlock f response.
Proof.
  split; [apply codeMatch_none|].
  intros H. destruct (codeMatch f response) as [b|] eqn:E; [|reflexivity].
  exfalso. apply H. eapply codeMatch_some; eauto.
Qed.

End CodeBlock.

(** ** When the parser throws *)

Module Throwing.
Import Js Num Model Pattern Spec JsFacts CodeBlock.







End Throwing.

(** ** The minimum number of views *)

Module Threshold.
Import Js Num Model Pattern Spec JsFacts CodeBlock.

Lemma hasCodeBlock_match f response :
  hasCodeBlock f response -> exists body, codeMatch f response = Some body.
Proof.
  intros H. destruct (codeMatch f response) as [b|] eqn:E; [eauto|].
  apply codeMatch_iff in E. contradiction.
Qed.

(** C1, as the code has it: with a code section in the response, part_000
    returns the parsed views when there are at least 3 of them and its three
    default views otherwise; part_001 returns the parsed views when there
    are more than 3 of them and its seven default views otherwise.  The
    result is one list or the other, never a mix. *)
Theorem parsed_views_or_defaults (response : jsstring) :
  hasCodeBlock IgnoreCase response ->
  (exists m, RevA.parseResponse response = Ok m
     /\ (3 <= length (RevA.parsedViews response)
         -> views m = RevA.parsedViews response)
     /\ (length (RevA.parsedViews response) < 3
         -> views m = RevA.defaultViews))
  /\ (exists m, RevB.parseResponse response = Ok m
     /\ (3 < length (RevB.views_ (RevB.parseViews response))
         -> views m = RevB.views_ (RevB.parseViews response))
     /\ (length (RevB.views_ (RevB.parseViews response)) <= 3
         -> views m = RevB.defaultViews)).
Proof.
  intros H. apply hasCodeBlock_match in H. destruct H as [body Hb].
  unfold RevA.parseResponse, RevB.parseResponse. rewrite Hb. split.
  - eexists. split; [reflexivity|]. cbn [views]. unfold RevA.MIN_VIEWS.
    split; intros Hn.
    + apply Nat.leb_le in Hn. rewrite Hn. reflexivity.
    + apply Nat.leb_gt in Hn. rewrite Hn. reflexivity.
  - eexists. split; [reflexivity|]. cbn [views]. split; intros Hn.
    + apply Nat.ltb_lt in Hn. rewrite Hn. reflexivity.
    + apply Nat.ltb_ge in Hn. rewrite Hn. reflexivity.
Qed.

Lemma promptA_hasCodeBlock : hasCodeBlock IgnoreCase TestInputs.promptA.
Proof.
  exists 0, 21. repeat split; try reflexivity; cbn; lia.
Defined.

Lemma parsed_views_or_defaults_witness :
  hasCodeBlock IgnoreCase TestInputs.promptA
  /\ exists m, RevA.parseResponse TestInputs.promptA = Ok m
       /\ views m = [ view3 "front" 0 0 0 150; view3 "top" 90 0 0 200;
                      view3 "iso" 45 35 15 250 ].
Proof.
  split; [exact promptA_hasCodeBlock|].
  destruct (parsed_views_or_defaults promptA_hasCodeBlock)
    as [(m & Hm & Hge & _) _].
  exists m. split; [exact Hm|].
  rewrite Hge; [reflexivity | vm_compute; lia].
Defined.

(** C1 as stated fails on part_001: three parsed views meet the threshold
    of 3, and the parser returns its seven defaults instead of them. *)
Lemma three_views_replaced_by_defaults :
  length (RevB.views_ (RevB.parseViews TestInputs.promptA)) = 3
  /\ exists m, RevB.parseResponse TestInputs.promptA = Ok m
       /\ views m = RevB.defaultViews
       /\ views m <> RevB.views_ (RevB.parseViews TestInputs.promptA).
Proof.
  split; [reflexivity|].
  eexists. split; [reflexivity|]. split; [reflexivity|].
  vm_compute. discriminate.
Qed.

End Threshold.

(** ** Entries whose angles are negative *)

Module NegativeAngles.
Import Js Num Model Pattern Spec.

(** The loop of part_000 keeps the accepted entries in the order of the
    text. *)
Lemma pushEntry_in_order : forall entries acc,
  fold_left RevA.pushEntry entries acc
  = acc ++ flat_map (fun e => match RevA.parseEntry e with
                              | Some v => [v]
                              | None => []
                              end) entries.
Proof.
  induction entries as [|e es IH]; intros acc; simpl.
  - rewrite app_nil_r. reflexivity.
  - rewrite IH. unfold RevA.pushEntry.
    destruct (RevA.parseEntry e); [rewrite <- app_assoc|]; reflexivity.
Qed.

(** In part_001 every entry gives a view or a warning. *)
Lemma step_view_or_warning : forall entries acc,
  length (RevB.views_ (fold_left RevB.step entries acc))
  + length (RevB.viewErrors (fold_left RevB.step entries acc))
  = length (RevB.views_ acc) + length (RevB.viewErrors acc) + length entries.
Proof.
  induction entries as [|[i e] es IH]; intros acc; simpl; [lia|].
  rewrite IH. destruct (RevB.parseEntry i e); simpl; rewrite length_app; simpl; lia.
Qed.

(** C3 at the response format that the system prompt of part_001 itself
    prescribes (seven well-formed entries): the dash of a negative angle is
    taken for an entry separator, so the entries "right" and "bottom" are
    cut in two and dropped.  part_001 returns five views instead of seven;
    the first program of index.ts falls back to its two defaults. *)
Theorem prompt_format_loses_views :
  RevB.parseResponse TestInputs.promptB
  = Ok {| code := lit "cube(20);";
          views := [ view3 "front" 0 0 0 150; view3 "back" 0 180 0 150;
                     view3 "left" 0 90 0 150; view3 "top" 90 0 0 150;
                     view3 "iso" 45 35 0 200 ] |}
  /\ RevB.viewErrors (RevB.parseViews TestInputs.promptB)
     = [ lit "View 4: Invalid angles in view 4";
         lit "View 5: Missing name in view 5";
         lit "View 7: Invalid angles in view 7";
         lit "View 8: Missing name in view 8" ]
  /\ RevC.parseResponse TestInputs.promptB
     = Ok {| code := lit "cube(20);"; views := RevC.defaultViews |}.
Proof.
  repeat split; vm_compute; reflexivity.
Qed.

End NegativeAngles.

(** ** The invariant of the views returned *)

Module Invariant.
Import Js Num Model Pattern Spec.

Ltac char_cases :=
  repeat match goal with
         | |- context [(?a <=? ?b)%N] => destruct (N.leb_spec a b)
         | |- context [(?a =? ?b)%N] => destruct (N.eqb_spec a b)
         end;
  simpl in *; try reflexivity; try discriminate; try lia.

Lemma digit_not_space c : isDigit c = true -> isSpace c = false.
Proof. unfold isDigit, isSpace, in_range. char_cases. Qed.

Lemma digit_not_sign c :
  isDigit c = true -> isChar 45 c = false /\ isChar 43 c = false.
Proof. unfold isDigit, isChar, in_range. split; revert H; char_cases. Qed.

Lemma scan_some (A : Type) (m : jsstring -> option A) : forall s x,
  scan m s = Some x -> exists s', m s' = Some x.
Proof.
  induction s as [|c s IH]; intros x H; simpl in H.
  - destruct (m []) eqn:E; [|discriminate]. inversion H; subst; eauto.
  - destruct (m (c :: s)) eqn:E.
    + inversion H; subst; eauto.
    + eauto.
Qed.

Lemma span_fst_all ok : forall s, forallb ok (fst (span ok s)) = true.
Proof.
  induction s as [|c s IH]; simpl; [reflexivity|].
  destruct (ok c) eqn:E; [|reflexivity].
  destruct (span ok s) as [a b]. simpl in *. rewrite E. exact IH.
Qed.

Lemma span_all ok : forall s, forallb ok s = true -> span ok s = (s, []).
Proof.
  induction s as [|c s IH]; simpl; [reflexivity|].
  intros H. apply andb_true_iff in H as [H1 H2].
  rewrite H1, (IH H2). reflexivity.
Qed.

Lemma nonEmpty_true s : nonEmpty s = true -> s <> [].
Proof. destruct s; [discriminate | discriminate]. Qed.

Lemma digitsDistance_digits eq entry d :
  digitsDistance eq entry = Some d ->
  nonEmpty d = true /\ forallb isDigit d = true.
Proof.
  unfold digitsDistance. intros H. apply scan_some in H.
  destruct H as [s H]. unfold bind in H.
  destruct (key "distance" eq s) as [r|]; [|discriminate].
  destruct (nonEmpty (fst (span isDigit r))) eqn:E; [|discriminate].
  inversion H; subst. split; [exact E | apply span_fst_all].
Qed.

Lemma roundToDouble_nonNegative v : nonNegativeDistance (roundToDouble false v).
Proof.
  unfold roundToDouble, nonNegativeDistance.
  destruct (N.size v <=? 53)%N; [left; eexists; reflexivity|].
  match goal with
  | |- context [if ?b then Infinity false else _] => destruct b
  end; [right; reflexivity | left; eexists; reflexivity].
Qed.

(** [parseInt] of a non-empty run of digits is the double nearest to the
    integer written. *)
Lemma parseInt_digits d :
  nonEmpty d = true -> forallb isDigit d = true ->
  parseInt d = roundToDouble false (radixVal 10 d).
Proof.
  intros Hn Hd. destruct d as [|c d]; [discriminate|].
  pose proof Hd as Hall. simpl in Hd. apply andb_true_iff in Hd as [Hc _].
  unfold parseInt. simpl dropSpaces. rewrite (digit_not_space _ Hc).
  destruct (digit_not_sign _ Hc) as [Hm Hp]. rewrite Hm, Hp.
  rewrite (span_all _ _ Hall). reflexivity.
Qed.

(** Above 2^53 the digits are rounded; a run of 400 digits is Infinity. *)
Lemma parseInt_rounds :
  parseInt (lit "9007199254740993") = Dec false 9007199254740992 0
  /\ parseInt TestInputs.longDigits = Infinity false.
Proof. split; vm_compute; reflexivity. Qed.

Lemma distance_field eq entry :
  nonNegativeDistance (match digitsDistance eq entry with
                      | Some d => parseInt d
                      | None => ofZ 150
                      end).
Proof.
  destruct (digitsDistance eq entry) as [d|] eqn:E.
  - apply digitsDistance_digits in E. destruct E as [Hn Hd].
    rewrite (parseInt_digits _ Hn Hd). apply roundToDouble_nonNegative.
  - left. exists 150%N. reflexivity.
Qed.

Lemma filter_numeric (l : list number) :
  forallb numeric (filter (fun n => negb (isNaN n)) l) = true.
Proof.
  induction l as [|n l IH]; simpl; [reflexivity|].
  destruct (isNaN n) eqn:E; simpl; [exact IH|].
  unfold numeric at 1. rewrite E. exact IH.
Qed.

Lemma toLowerCase_nonempty s : s <> [] -> toLowerCase s <> [].
Proof. destruct s; [congruence | discriminate]. Qed.

Lemma delimited_nonempty o c s body :
  delimited o c s = Some body -> body <> [].
Proof.
  unfold delimited. destruct s as [|q t]; [discriminate|].
  destruct (isChar o q); [|discriminate].
  destruct (span _ t) as [b r].
  destruct (nonEmpty b) eqn:E; simpl; [|discriminate].
  destruct (nonEmpty r); [|discriminate].
  intros H; inversion H; subst. apply nonEmpty_true, E.
Qed.

Lemma quotedName_nonempty entry n : quotedName entry = Some n -> n <> [].
Proof.
  unfold quotedName. intros H. apply scan_some in H. destruct H as [s H].
  unfold bind in H. destruct (key "name" false s); [|discriminate].
  eapply delimited_nonempty; eauto.
Qed.

Lemma nameMatch_nonempty entry n : RevB.nameMatch entry = Some n -> n <> [].
Proof.
  unfold RevB.nameMatch. intros H. apply scan_some in H. destruct H as [s H].
  unfold bind in H. destruct (key "name" true s) as [r|]; [|discriminate].
  match type of H with
  | (if nonEmpty ?g then _ else _) = _ => destruct (nonEmpty g) eqn:E
  end; [|discriminate].
  inversion H; subst. apply nonEmpty_true, E.
Qed.

Lemma parseEntry_A_valid entry v :
  RevA.parseEntry entry = Some v -> validView v.
Proof.
  unfold RevA.parseEntry.
  destruct (quotedName entry) as [n|] eqn:En; [|discriminate].
  destruct (bracketAngle entry) as [a|]; [|discriminate].
  destruct (length (RevA.angleParts a) =? 3) eqn:El; [|discriminate].
  intros H; inversion H; subst; clear H. repeat split; simpl.
  - apply toLowerCase_nonempty. eapply quotedName_nonempty; eauto.
  - apply Nat.eqb_eq, El.
  - apply filter_numeric.
  - apply distance_field.
Qed.

Lemma parseEntry_B_valid index entry v :
  RevB.parseEntry index entry = Ok v -> validView v.
Proof.
  unfold RevB.parseEntry.
  destruct (RevB.nameMatch entry) as [n|] eqn:En; [|discriminate].
  destruct (RevB.angleMatch entry) as [a|]; [|discriminate].
  destruct (length (RevB.angleParts a) =? 3) eqn:El; [|discriminate].
  intros H; inversion H; subst; clear H. repeat split; simpl.
  - apply toLowerCase_nonempty. eapply nameMatch_nonempty; eauto.
  - apply Nat.eqb_eq, El.
  - apply filter_numeric.
  - apply distance_field.
Qed.

Lemma pushEntry_valid : forall entries acc,
  Forall validView acc ->
  Forall validView (fold_left RevA.pushEntry entries acc).
Proof.
  induction entries as [|e es IH]; intros acc Hacc; simpl; [exact Hacc|].
  apply IH. unfold RevA.pushEntry.
  destruct (RevA.parseEntry e) as [v|] eqn:E; [|exact Hacc].
  apply Forall_app. split; [exact Hacc|].
  constructor; [eapply parseEntry_A_valid; eauto | constructor].
Qed.

Lemma step_valid : forall entries acc,
  Forall validView (RevB.views_ acc) ->
  Forall validView (RevB.views_ (fold_left RevB.step entries acc)).
Proof.
  induction entries as [|[i e] es IH]; intros acc Hacc; simpl; [exact Hacc|].
  apply IH. destruct (RevB.parseEntry i e) as [v|m] eqn:E; simpl; [|exact Hacc].
  apply Forall_app. split; [exact Hacc|].
  constructor; [eapply parseEntry_B_valid; eauto | constructor].
Qed.

Lemma parsedViews_A_valid response :
  Forall validView (RevA.parsedViews response).
Proof.
  unfold RevA.parsedViews.
  destruct (viewsMatch response) as [sec|]; [|constructor].
  destruct (nonEmpty sec); [|constructor].
  apply pushEntry_valid. constructor.
Qed.

Lemma parseViews_B_valid response :
  Forall validView (RevB.views_ (RevB.parseViews response)).
Proof.
  unfold RevB.parseViews.
  destruct (viewsMatch response) as [sec|]; [|constructor].
  destruct (nonEmpty sec); [|constructor].
  apply step_valid. constructor.
Qed.

Lemma view3_valid n a b c d :
  lit n <> [] -> (0 <= d)%Z -> validView (view3 n a b c d).
Proof.
  intros Hn Hd. split; [exact Hn|]. split; [reflexivity|].
  split; [reflexivity|]. left.
  exists (Z.abs_N d). unfold view3, ofZ. simpl.
  destruct (Z.ltb_spec d 0); [lia | reflexivity].
Qed.

Lemma defaults_A_valid : Forall validView RevA.defaultViews.
Proof.
  repeat (apply Forall_cons; [apply view3_valid; (discriminate || lia)|]).
  apply Forall_nil.
Qed.

Lemma defaults_B_valid : Forall validView RevB.defaultViews.
Proof.
  repeat (apply Forall_cons; [apply view3_valid; (discriminate || lia)|]).
  apply Forall_nil.
Qed.

(** C4, as the code has it: every view of a Design returned by the parser
    of part_000 or of part_001 has a non-empty name, exactly 3 angle
    components, none of them NaN, and a distance that is never negative and
    never NaN: a non-negative integer (the digits written, rounded to a
    double, or the default 150) or, for a run of digits too long for a
    double, Infinity. *)
Theorem returned_views_valid (response : jsstring) (m : CADModel)
    (v : ViewSpec) :
  RevA.parseResponse response = Ok m \/ RevB.parseResponse response = Ok m ->
  In v (views m) -> validView v.
Proof.
  intros [H|H] Hin.
  - unfold RevA.parseResponse in H.
    destruct (codeMatch IgnoreCase response); [|discriminate].
    inversion H; subst; clear H. cbn [views] in Hin.
    match type of Hin with In _ (if ?b then _ else _) => destruct b end.
    + eapply Forall_forall in Hin; [exact Hin | apply parsedViews_A_valid].
    + eapply Forall_forall in Hin; [exact Hin | apply defaults_A_valid].
  - unfold RevB.parseResponse in H.
    destruct (codeMatch IgnoreCase response); [|discriminate].
    inversion H; subst; clear H. cbn [views] in Hin.
    match type of Hin with In _ (if ?b then _ else _) => destruct b end.
    + eapply Forall_forall in Hin; [exact Hin | apply parseViews_B_valid].
    + eapply Forall_forall in Hin; [exact Hin | apply defaults_B_valid].
Qed.

Lemma returned_views_valid_witness :
  RevA.parseResponse TestInputs.zeroDistance
  = Ok {| code := lit "cube(20);";
          views := [ view3 "front" 0 0 0 0; view3 "top" 90 0 0 200;
                     view3 "iso" 45 35 15 250 ] |}
  /\ validView (view3 "front" 0 0 0 0).
Proof.
  split; [reflexivity|].
  apply (@returned_views_valid TestInputs.zeroDistance
           {| code := lit "cube(20);";
              views := [ view3 "front" 0 0 0 0; view3 "top" 90 0 0 200;
                         view3 "iso" 45 35 15 250 ] |}).
  - left. reflexivity.
  - simpl. left. reflexivity.
Defined.

(** C4 as stated fails: the distance pattern accepts the digit 0, and the
    view is returned with the distance 0, which is not greater than 0. *)
Lemma zero_distance_accepted :
  exists m v,
    RevA.parseResponse TestInputs.zeroDistance = Ok m
    /\ In v (views m)
    /\ distance v = ofZ 0
    /\ positive (distance v) = false.
Proof.
  eexists. exists (view3 "front" 0 0 0 0).
  split; [reflexivity|]. split; [left; reflexivity|]. split; reflexivity.
Qed.

End Invariant.

(** ** The render loop *)

Module Rendering.
Import Js Num Model Pattern Spec Renderer.

Section LoopFacts.

Variable Camera : Type.
Variable cameraParams : ViewSpec -> result Camera.
Variable failure : ViewSpec -> jsstring -> jsstring.
Variables onCatch onReturn : renderer -> renderer.
Variable kernel : nat -> jsstring -> Camera -> ViewSpec -> result jsstring.
Variable source : jsstring.

Let run := loop cameraParams failure onCatch onReturn kernel source.

Lemma loop_ok : forall todo r i renders r' rs,
  run r i todo renders = (r', Ok rs) ->
  map view rs = map view renders ++ map name todo /\ r' = onReturn r.
Proof.
  induction todo as [|v rest IH]; intros r i renders r' rs H; simpl in H.
  - inversion H; subst. rewrite app_nil_r. auto.
  - destruct (cameraParams v) as [cam|m]; [|discriminate].
    destruct (kernel i source cam v) as [img|m]; [|discriminate].
    apply IH in H. destruct H as [H1 H2]. split; [|exact H2].
    rewrite H1. unfold pushRender. rewrite map_app, <- app_assoc.
    reflexivity.
Qed.

Lemma loop_throw : forall todo r i renders r' m,
  run r i todo renders = (r', Throw m) ->
  r' = onCatch r /\ exists v cause, In v todo /\ m = failure v cause.
Proof.
  induction todo as [|v rest IH]; intros r i renders r' m H; simpl in H.
  - discriminate.
  - destruct (cameraParams v) as [cam|c] eqn:Ec.
    + destruct (kernel i source cam v) as [img|c] eqn:Ek.
      * apply IH in H. destruct H as (H1 & v' & c & Hin & Hm).
        split; [exact H1|]. exists v', c. split; [right; exact Hin | exact Hm].
      * inversion H; subst. split; [reflexivity|].
        exists v, c. split; [left; reflexivity | reflexivity].
    + inversion H; subst. split; [reflexivity|].
      exists v, c. split; [left; reflexivity | reflexivity].
Qed.

End LoopFacts.

(** C8: when the render call returns, the results are the views of the
    Design, one result per view, in the same order, each carrying the name
    of its view; in part_000 and in part_001. *)
Theorem render_one_result_per_view (now : jsstring)
    (kernelA : nat -> jsstring -> GimbalCamera -> ViewSpec -> result jsstring)
    (kernelB : nat -> jsstring -> EyeCentre -> ViewSpec -> result jsstring)
    (r r' : renderer) (model : CADModel) (rs : list RenderResult) :
  renderA now kernelA r model = (r', Ok rs)
  \/ renderB now kernelB r model = (r', Ok rs) ->
  map view rs = map name (views model)
  /\ length rs = length (views model).
Proof.
  intros H.
  assert (Hmap : map view rs = map name (views model)).
  { destruct H as [H|H]; apply loop_ok in H; destruct H as [H _]; exact H. }
  split; [exact Hmap|].
  rewrite <- (length_map view rs), Hmap. apply length_map.
Qed.

Lemma render_one_result_per_view_witness :
  let rs := [ {| view := lit "front"; image := lit "png" |};
              {| view := lit "top"; image := lit "png" |};
              {| view := lit "iso"; image := lit "png" |} ] in
  map view rs = map name (views TestInputs.cube) /\ length rs = 3.
Proof.
  intros rs.
  apply (@render_one_result_per_view TestInputs.clock
           (fun _ _ _ _ => Ok (lit "png")) (fun _ _ _ _ => Ok (lit "png"))
           TestInputs.fresh TestInputs.fresh TestInputs.cube rs).
  left. reflexivity.
Defined.

Lemma mkdir_In d l : In d (mkdir d l).
Proof.
  unfold mkdir. destruct (in_dec jsstring_dec d l); [assumption | left; reflexivity].
Qed.

(** [cleanup] of part_000 and part_001 after the scratch directory was
    made: the field is reset and the directory is gone. *)
Lemma scratch_removed d l :
  let r2 := {| tempDir := Some d; disk := mkdir d l |} in
  tempDir (cleanup r2) = None /\ ~ In d (disk (cleanup r2)).
Proof.
  intros r2. unfold cleanup, existsSync. simpl.
  destruct (in_dec jsstring_dec d (mkdir d l)) as [_|Hn].
  - simpl. split; [reflexivity | apply remove_In].
  - exfalso. apply Hn, mkdir_In.
Qed.

(** part_001 does what C7 says: a failing view ends the call with an error
    that names the view, and on failure as on success the scratch directory
    is removed. *)
Lemma renderB_exits now kernel r model r' out :
  renderB now kernel r model = (r', out) ->
  tempDir r' = None /\ ~ In (scratchName now) (disk r')
  /\ match out with
     | Ok rs => map view rs = map name (views model)
     | Throw m => exists v cause,
         In v (views model)
         /\ m = lit "Failed to render " ++ name v ++ lit ": " ++ cause
     end.
Proof.
  unfold renderB. intros H. destruct out as [rs|m].
  - apply loop_ok in H. destruct H as [Hm Hr]. subst r'.
    destruct (scratch_removed (scratchName now) (disk (cleanup r))) as [H1 H2].
    repeat split; assumption.
  - apply loop_throw in H. destruct H as [Hr Hv]. subst r'.
    destruct (scratch_removed (scratchName now) (disk (cleanup r))) as [H1 H2].
    repeat split; assumption.
Qed.

(** C7 where the first view fails with the cause "boom": the first program
    of index.ts throws without any cleanup, so the scratch directory is
    still on disk and still held by the renderer; part_000 removes it but
    its error does not name the view. *)
Theorem failed_render_leaves_scratch :
  let boom (C : Type) := fun (_ : nat) (_ : jsstring) (_ : C) (_ : ViewSpec) =>
                           @Throw jsstring (lit "boom") in
  renderC TestInputs.clock (boom EyeOnly) TestInputs.fresh TestInputs.cube
  = ({| tempDir := Some (lit "/tmp/cad-forge-1700000000000");
        disk := [lit "/tmp/cad-forge-1700000000000"] |},
     Throw (lit "Failed to render view front: boom"))
  /\ renderA TestInputs.clock (boom GimbalCamera) TestInputs.fresh TestInputs.cube
     = (TestInputs.fresh, Throw (lit "Render failed: boom")).
Proof.
  split; reflexivity.
Qed.

End Rendering.

(** ** The camera of part_000 *)

Module Camera.
Import Js Num Model Pattern Spec Renderer.

Lemma max_below_floor d :
  ltb d baseDistance = true -> Num.max d baseDistance = baseDistance.
Proof.
  intros H. destruct d as [|neg|neg m e]; simpl in *;
    try discriminate; rewrite H; reflexivity.
Qed.

Lemma nameIs_exclusive a b v :
  lit a <> lit b -> nameIs a v = true -> nameIs b v = false.
Proof.
  unfold nameIs. intros Hab.
  destruct (jsstring_dec (name v) (lit a)) as [Ea|]; [|discriminate].
  destruct (jsstring_dec (name v) (lit b)) as [Eb|]; [|reflexivity].
  congruence.
Qed.

(** C6, as part_000 has it: the camera is a function of the name, the
    angles and the distance of the view alone; for a view whose distance is
    below the floor of 100 the camera distance is the floor, except for the
    view named "iso", whose camera distance is always 120; it is never the
    raw distance. *)
Theorem camera_distance_floor :
  (forall v1 v2,
      name v1 = name v2 -> angle v1 = angle v2 -> distance v1 = distance v2 ->
      cameraParamsA v1 = cameraParamsA v2)
  /\ (forall v,
      ltb (distance v) baseDistance = true ->
      dist (cameraParamsA v)
      = (if nameIs "iso" v then scaledBase else baseDistance)
      /\ dist (cameraParamsA v) <> distance v).
Proof.
  split.
  - intros v1 v2 Hn Ha Hd. unfold cameraParamsA, nameIs.
    rewrite Hn, Ha, Hd. reflexivity.
  - intros v H.
    assert (Hd : dist (cameraParamsA v)
                 = if nameIs "iso" v then scaledBase else baseDistance).
    { unfold cameraParamsA.
      destruct (nameIs "front" v) eqn:Ef.
      - rewrite (@nameIs_exclusive "front" "iso" v); [reflexivity | discriminate | exact Ef].
      - destruct (nameIs "top" v) eqn:Et.
        + rewrite (@nameIs_exclusive "top" "iso" v); [reflexivity | discriminate | exact Et].
        + destruct (nameIs "iso" v); [reflexivity|].
          simpl. apply max_below_floor, H. }
    split; [exact Hd|].
    intros Heq. rewrite Heq in Hd. rewrite Hd in H.
    destruct (nameIs "iso" v); vm_compute in H; discriminate.
Qed.

Lemma camera_distance_floor_witness :
  let v := view3 "side" 0 90 0 50 in
  dist (cameraParamsA v) = baseDistance /\ dist (cameraParamsA v) <> distance v.
Proof.
  intros v. apply (proj2 camera_distance_floor v). reflexivity.
Defined.

(** C6 as stated fails on the view named "iso": below the floor, its camera
    distance is 120, not the floor value 100. *)
Lemma iso_distance_not_floor :
  let v := view3 "iso" 45 35 15 50 in
  ltb (distance v) baseDistance = true
  /\ dist (cameraParamsA v) = ofZ 120
  /\ dist (cameraParamsA v) <> baseDistance.
Proof.
  repeat split; try reflexivity. vm_compute. discriminate.
Qed.

End Camera.

(** ** Feedback against an unrendered iteration *)

Module Feedback.
Import Js Num Model Pattern Spec Session.

(** part_001 and index.ts do what C5 says: with an empty render list the
    call throws before any request, and the file is not written. *)
Lemma iterateModelB_no_renders parseJSON stringify anthropic now parse
    (s : session) (fb : jsstring) st it :
  loadState parseJSON s = Some st ->
  lastIteration st = Some it ->
  renders it = [] ->
  let out := iterateModelB parseJSON stringify anthropic now parse s fb in
  snd out = Throw (lit "No renders found from previous iteration")
  /\ stateFile (fst out) = stateFile s
  /\ sent (fst out) = sent s.
Proof.
  intros Hl Hi Hr. unfold iterateModelB. rewrite Hl, Hi, Hr. simpl. auto.
Qed.

(** C5 on part_000, whose [iterateModel] has no check of the renders: with
    the stored session's only iteration unrendered, the call sends a request
    without images, parses the answer, appends an iteration and overwrites
    the state file. *)
Theorem unrendered_iteration_not_rejected :
  let out := iterateModelA TestInputs.readUnrendered TestInputs.countIterations
               (fun _ => TestInputs.promptA) TestInputs.clock
               RevA.parseResponse TestInputs.stored (lit "thicker walls") in
  snd out = Ok TestInputs.cube
  /\ length (sent (fst out)) = 1
  /\ stateFile TestInputs.stored = Some (lit "1")
  /\ stateFile (fst out) = Some (lit "2").
Proof.
  repeat split; reflexivity.
Qed.

End Feedback.

(** ** The first code section *)

Module FirstSection.
Import Js Num Model Pattern Spec JsFacts CodeBlock.

Lemma strip_app f p : forall m t,
  strip f p m = Some [] -> strip f p (m ++ t) = Some t.
Proof.
  induction p as [|a p IH]; intros m t H; simpl in *.
  - inversion H; subst. reflexivity.
  - destruct m as [|c m]; [discriminate|]. simpl.
    destruct (eqc f a c); [apply IH; exact H | discriminate].
Qed.

Lemma skipn_length_app (A : Type) (a b : list A) :
  skipn (length a) (a ++ b) = b.
Proof.
  rewrite skipn_app, skipn_all, Nat.sub_diag. reflexivity.
Qed.

Lemma firstn_length_app (A : Type) (a b : list A) :
  firstn (length a) (a ++ b) = a.
Proof.
  rewrite firstn_app, firstn_all, Nat.sub_diag. simpl. apply app_nil_r.
Qed.

(** The leftmost match is where [search] stops. *)
Lemma search_first f p a m b :
  isTag f p m -> noneBefore f p (a ++ m ++ b) (length a) ->
  search f p (a ++ m ++ b) = Some (a, b).
Proof.
  intros Hm Hnone.
  assert (Hat : strip f p (skipn (length a) (a ++ m ++ b)) = Some b).
  { rewrite skipn_length_app. apply strip_app, Hm. }
  destruct (@search_found f p (a ++ m ++ b) (length a)) as (a' & b' & Hs & Hl).
  - rewrite length_app. lia.
  - congruence.
  - rewrite Hs. pose proof (search_some _ _ _ Hs) as (Ha' & Hb' & _).
    destruct (Nat.eq_dec (length a') (length a)) as [E|E].
    + rewrite E in Ha', Hb'. rewrite firstn_length_app in Ha'.
      rewrite Hat in Hb'. inversion Hb'. rewrite Ha'. reflexivity.
    + rewrite Hnone in Hb' by lia. discriminate.
Qed.

Lemma firstSection_match f response body :
  firstSection f response body -> codeMatch f response = Some body.
Proof.
  intros (pre & o & cl & rest & Hr & Ho & Hc & Hn1 & Hn2). subst response.
  unfold codeMatch, bind. fold OPEN CLOSE.
  rewrite (@search_first f OPEN pre o _ Ho Hn1).
  rewrite (@search_first f CLOSE body cl _ Hc Hn2). reflexivity.
Qed.

(** C9: whatever follows the first code section, further code sections
    included, the parser returns, and the code of the Design is the trimmed
    content of the first section; in part_001 (tags in any letter case) and
    in the first program of index.ts (tags in lower case). *)
Theorem first_code_section_wins (response body : jsstring) :
  (firstSection IgnoreCase response body ->
     exists m, RevB.parseResponse response = Ok m /\ code m = trim body)
  /\ (firstSection CaseSensitive response body ->
     exists m, RevC.parseResponse response = Ok m /\ code m = trim body).
Proof.
  split; intros H; apply firstSection_match in H.
  - unfold RevB.parseResponse. rewrite H. eexists. split; reflexivity.
  - unfold RevC.parseResponse. rewrite H. eexists. split; reflexivity.
Qed.

Lemma forall_below (P : nat -> bool) n :
  forallb P (seq 0 n) = true -> forall j, j < n -> P j = true.
Proof.
  intros H j Hj. rewrite forallb_forall in H. apply H.
  apply in_seq. lia.
Qed.

Lemma noneBefore_check f p s k :
  forallb (noMatch f p s) (seq 0 k) = true -> noneBefore f p s k.
Proof.
  intros H j Hj. pose proof (@forall_below _ _ H j Hj) as Hn.
  unfold noMatch in Hn. destruct (strip f p (skipn j s)); [discriminate|reflexivity].
Qed.

Lemma twoSections_first f :
  firstSection f TestInputs.twoSections (lit " cube(1); ").
Proof.
  exists [], (lit "<openscad>"), (lit "</openscad>"),
         (lit " or <openscad>sphere(2);</openscad>").
  split; [reflexivity|]. split; [destruct f; reflexivity|].
  split; [destruct f; reflexivity|]. split.
  - intros j Hj. simpl in Hj. lia.
  - apply noneBefore_check. destruct f; reflexivity.
Defined.

Lemma first_code_section_wins_witness :
  exists m, RevB.parseResponse TestInputs.twoSections = Ok m
            /\ code m = lit "cube(1);".
Proof.
  exact (proj1 (first_code_section_wins TestInputs.twoSections (lit " cube(1); "))
               (twoSections_first IgnoreCase)).
Defined.

End FirstSection.

(** ** The extent of the views section *)

Module ViewsSection.
Import Js Num Model Pattern Spec JsFacts CodeBlock FirstSection.








End ViewsSection.

(** ** The dash as entry separator *)

Module Dashes.
Import Js Num Model Pattern Spec Shape.

Lemma dashFree_app a b :
  dashFree (a ++ b) = dashFree a && dashFree b.
Proof. apply forallb_app. Qed.

Lemma dashFree_rev a : dashFree (rev a) = dashFree a.
Proof.
  induction a as [|c a IH]; [reflexivity|].
  simpl rev. rewrite dashFree_app, IH. simpl. rewrite andb_true_r.
  apply andb_comm.
Qed.

(** Every piece cut by a separator that matches at each dash is free of
    dashes. *)
Lemma splitRe_no_dash sep :
  (forall c t, sep (c :: t) = None -> isChar 45 c = false) ->
  forall s skip cur,
    dashFree cur = true ->
    Forall (fun piece => dashFree piece = true) (splitRe sep skip cur s).
Proof.
  intros Hsep. induction s as [|c s IH]; intros skip cur Hcur; simpl.
  - constructor; [rewrite dashFree_rev; exact Hcur | constructor].
  - destruct skip as [|k]; [|apply IH; exact Hcur].
    destruct (sep (c :: s)) as [n|] eqn:E.
    + constructor; [rewrite dashFree_rev; exact Hcur | apply IH; reflexivity].
    + apply IH. simpl. rewrite (Hsep _ _ E), Hcur. reflexivity.
Qed.

(** The pieces of a text without dashes have none, whatever the separator. *)
Lemma splitRe_keeps_dashFree sep : forall s skip cur,
  dashFree s = true -> dashFree cur = true ->
  Forall (fun piece => dashFree piece = true) (splitRe sep skip cur s).
Proof.
  induction s as [|c s IH]; intros skip cur Hs Hcur; simpl.
  - constructor; [rewrite dashFree_rev; exact Hcur | constructor].
  - simpl in Hs. apply andb_true_iff in Hs as [Hc Hs].
    destruct skip as [|k]; [|apply IH; assumption].
    destruct (sep (c :: s)) as [n|].
    + constructor; [rewrite dashFree_rev; exact Hcur | apply IH; auto].
    + apply IH; [exact Hs | simpl; rewrite Hc, Hcur; reflexivity].
Qed.

Lemma sepDash_none c t : sepDash (c :: t) = None -> isChar 45 c = false.
Proof. simpl. destruct (isChar 45 c); [discriminate | reflexivity]. Qed.

Lemma sepEntry_none c t : sepEntry (c :: t) = None -> isChar 45 c = false.
Proof.
  simpl. destruct (isChar 10 c) eqn:E10.
  - intros _. unfold isChar in *. apply N.eqb_eq in E10.
    apply N.eqb_neq. rewrite E10. discriminate.
  - destruct (isChar 45 c); [discriminate | reflexivity].
Qed.

Lemma dashFree_tail c t : dashFree (c :: t) = true -> dashFree t = true.
Proof. simpl. intros H. apply andb_true_iff in H. tauto. Qed.

Lemma dashFree_strip f p : forall s r,
  strip f p s = Some r -> dashFree s = true -> dashFree r = true.
Proof.
  induction p as [|a p IH]; intros s r H Hs; simpl in H.
  - inversion H; subst; exact Hs.
  - destruct s as [|c s]; [discriminate|].
    destruct (eqc f a c); [|discriminate].
    eapply IH; [exact H | eapply dashFree_tail; exact Hs].
Qed.

Lemma dashFree_dropSpaces : forall s,
  dashFree s = true -> dashFree (dropSpaces s) = true.
Proof.
  induction s as [|c s IH]; intros H; simpl; [reflexivity|].
  destruct (isSpace c); [apply IH; eapply dashFree_tail; exact H | exact H].
Qed.

Lemma dashFree_span ok : forall s,
  dashFree s = true ->
  dashFree (fst (span ok s)) = true /\ dashFree (snd (span ok s)) = true.
Proof.
  induction s as [|c s IH]; intros H; simpl; [auto|].
  destruct (ok c); [|simpl; auto].
  simpl in H. apply andb_true_iff in H as [Hc Hs].
  destruct (IH Hs) as [H1 H2]. destruct (span ok s) as [a b]. simpl in *.
  rewrite Hc, H1. auto.
Qed.

Lemma dashFree_trim s : dashFree s = true -> dashFree (trim s) = true.
Proof.
  intros H. unfold trim. rewrite dashFree_rev.
  apply dashFree_dropSpaces. rewrite dashFree_rev.
  apply dashFree_dropSpaces, H.
Qed.

Lemma dashFree_key k eq s r :
  key k eq s = Some r -> dashFree s = true -> dashFree r = true.
Proof.
  unfold key, bind. intros H Hs.
  destruct (strip IgnoreCase (lit k) s) as [r0|] eqn:E; [|discriminate].
  pose proof (dashFree_dropSpaces _ (dashFree_strip _ _ _ E Hs)) as Hd.
  destruct (dropSpaces r0) as [|c t]; [discriminate|].
  destruct (isChar 58 c || eq && isChar 61 c); [|discriminate].
  inversion H; subst. apply dashFree_dropSpaces.
  eapply dashFree_tail; exact Hd.
Qed.

Lemma dashFree_delimited o c s body :
  delimited o c s = Some body -> dashFree s = true -> dashFree body = true.
Proof.
  unfold delimited. intros H Hs. destruct s as [|q t]; [discriminate|].
  destruct (isChar o q); [|discriminate].
  pose proof (dashFree_span (fun x => negb (isChar c x)) t
                (dashFree_tail _ _ Hs)) as [H1 _].
  destruct (span _ t) as [b r]. simpl in H1.
  destruct (nonEmpty b && nonEmpty r); [|discriminate].
  inversion H; subst; exact H1.
Qed.

(** A match found by [scan] is a match at a suffix of the text. *)
Lemma scan_dashFree (A : Type) (m : jsstring -> option A) : forall s x,
  scan m s = Some x -> dashFree s = true ->
  exists s', dashFree s' = true /\ m s' = Some x.
Proof.
  induction s as [|c s IH]; intros x H Hs; simpl in H.
  - destruct (m []) eqn:E; [|discriminate]. inversion H; subst; eauto.
  - destruct (m (c :: s)) eqn:E.
    + inversion H; subst; eauto.
    + apply IH; [exact H | eapply dashFree_tail; exact Hs].
Qed.

Lemma quotedName_dashFree entry n :
  quotedName entry = Some n -> dashFree entry = true -> dashFree n = true.
Proof.
  unfold quotedName. intros H Hs.
  destruct (scan_dashFree _ _ H Hs) as (s' & Hs' & Hm).
  unfold bind in Hm. destruct (key "name" false s') as [r|] eqn:E; [|discriminate].
  eapply dashFree_delimited; [exact Hm | eapply dashFree_key; eauto].
Qed.

Lemma bracketAngle_dashFree entry a :
  bracketAngle entry = Some a -> dashFree entry = true -> dashFree a = true.
Proof.
  unfold bracketAngle. intros H Hs.
  destruct (scan_dashFree _ _ H Hs) as (s' & Hs' & Hm).
  unfold bind in Hm. destruct (key "angle" false s') as [r|] eqn:E; [|discriminate].
  eapply dashFree_delimited; [exact Hm | eapply dashFree_key; eauto].
Qed.

Ltac split_cases :=
  repeat match goal with
         | |- context [if ?b then _ else _] => destruct b
         | |- context [match ?x with _ => _ end] => destruct x
         end.

Lemma unsignedDecimal_unsigned s : negative (unsignedDecimal false s) = false.
Proof. unfold unsignedDecimal. split_cases; reflexivity. Qed.

Lemma nonDecimal_unsigned s n : nonDecimal s = Some n -> negative n = false.
Proof.
  unfold nonDecimal. destruct s as [|z [|p ds]]; try discriminate.
  split_cases; intros H; inversion H; reflexivity.
Qed.

(** [Number] of a text without dashes has no minus sign. *)
Lemma Number_unsigned s : dashFree s = true -> negative (Number s) = false.
Proof.
  intros H. apply dashFree_trim in H. unfold Number.
  destruct (trim s) as [|c t]; [reflexivity|].
  destruct (nonDecimal (c :: t)) as [n|] eqn:E.
  - eapply nonDecimal_unsigned; exact E.
  - simpl in H. apply andb_true_iff in H as [Hc _].
    apply negb_true_iff in Hc. rewrite Hc.
    destruct (isChar 43 c); apply unsignedDecimal_unsigned.
Qed.

Lemma lowerChar_dash c : isChar 45 (lowerChar c) = isChar 45 c.
Proof. destruct c as [[] [] [] [] [] [] [] []]; reflexivity. Qed.

Lemma dashFree_toLowerCase s : dashFree (toLowerCase s) = dashFree s.
Proof.
  unfold dashFree, toLowerCase.
  induction s as [|c s IH]; [reflexivity|].
  cbn [map forallb]. rewrite lowerChar_dash, IH. reflexivity.
Qed.

Lemma numbers_unsigned (pieces : list jsstring) :
  Forall (fun piece => dashFree piece = true) pieces ->
  forallb (fun n => negb (negative n))
          (filter (fun n => negb (isNaN n)) (map Number pieces)) = true.
Proof.
  induction 1 as [|piece pieces Hp _ IH]; [reflexivity|].
  simpl. destruct (isNaN (Number piece)); simpl; [exact IH|].
  rewrite (Number_unsigned _ Hp). exact IH.
Qed.

Lemma parseEntry_A_unsigned entry v :
  dashFree entry = true -> RevA.parseEntry entry = Some v -> unsignedView v.
Proof.
  intros He. unfold RevA.parseEntry.
  destruct (quotedName entry) as [n|] eqn:En; [|discriminate].
  destruct (bracketAngle entry) as [a|] eqn:Ea; [|discriminate].
  destruct (length (RevA.angleParts a) =? 3); [|discriminate].
  intros H; inversion H; subst; clear H. split; simpl.
  - rewrite dashFree_toLowerCase. eapply quotedName_dashFree; eauto.
  - apply numbers_unsigned. apply splitRe_keeps_dashFree; [|reflexivity].
    eapply bracketAngle_dashFree; eauto.
Qed.

Lemma pushEntry_unsigned : forall entries acc,
  Forall (fun e => dashFree e = true) entries ->
  Forall unsignedView acc ->
  Forall unsignedView (fold_left RevA.pushEntry entries acc).
Proof.
  induction entries as [|e es IH]; intros acc Hes Hacc; simpl; [exact Hacc|].
  inversion Hes; subst. apply IH; [assumption|]. unfold RevA.pushEntry.
  destruct (RevA.parseEntry e) as [v|] eqn:E; [|exact Hacc].
  apply Forall_app. split; [exact Hacc|].
  constructor; [eapply parseEntry_A_unsigned; eauto | constructor].
Qed.

Lemma Forall_tl (A : Type) (P : A -> Prop) (l : list A) :
  Forall P l -> Forall P (tl l).
Proof. destruct 1; [constructor | assumption]. Qed.

(** X1: the parser of part_000 never returns a view whose name holds a dash
    or whose angle carries a minus sign: the dash is always taken for an
    entry separator, and the defaults have neither. *)
Theorem part_000_views_unsigned (response : jsstring) (m : CADModel)
    (v : ViewSpec) :
  RevA.parseResponse response = Ok m -> In v (views m) -> unsignedView v.
Proof.
  intros H Hin. unfold RevA.parseResponse in H.
  destruct (codeMatch IgnoreCase response); [|discriminate].
  inversion H; subst; clear H. cbn [views] in Hin.
  match type of Hin with In _ (if ?b then _ else _) => destruct b end.
  - eapply Forall_forall in Hin; [exact Hin|].
    unfold RevA.parsedViews.
    destruct (viewsMatch response) as [sec|]; [|constructor].
    destruct (nonEmpty sec); [|constructor].
    apply pushEntry_unsigned; [|constructor].
    unfold RevA.viewEntries, split. apply Forall_tl.
    apply splitRe_no_dash; [apply sepDash_none | reflexivity].
  - eapply Forall_forall in Hin; [exact Hin|].
    repeat constructor.
Qed.

Lemma giveBack_dashFree w g :
  RevB.giveBack w = Some g -> dashFree w = true -> dashFree g = true.
Proof.
  unfold RevB.giveBack. intros H Hw. rewrite <- dashFree_rev in Hw.
  destruct (rev w) as [|x l]; [discriminate|].
  inversion H; subst. simpl in *. apply andb_true_iff in Hw as [Hx _].
  rewrite Hx. reflexivity.
Qed.

Lemma angleAt_dashFree s a :
  RevB.angleAt s = Some a -> dashFree s = true -> dashFree a = true.
Proof.
  unfold RevB.angleAt, bind. intros H Hs.
  destruct (strip IgnoreCase (lit "angle") s) as [r|] eqn:E; [|discriminate].
  pose proof (dashFree_dropSpaces _ (dashFree_strip _ _ _ E Hs)) as Hd.
  destruct (dropSpaces r) as [|c t]; [discriminate|].
  destruct (isChar 58 c || isChar 61 c); [|discriminate].
  apply dashFree_tail in Hd.
  pose proof (dashFree_span isSpace t Hd) as [Hw2 Ht'].
  destruct (span isSpace t) as [w2 t']. simpl in Hw2, Ht'.
  destruct t' as [|b u]; [eapply giveBack_dashFree; eauto|].
  destruct (isChar 91 b).
  - apply dashFree_tail in Ht'.
    pose proof (dashFree_span isSpace u Ht') as [Hw3 Hu'].
    destruct (span isSpace u) as [w3 u']. simpl in Hw3, Hu'.
    pose proof (dashFree_span RevB.isAngleChar u' Hu') as [Hg _].
    destruct (nonEmpty (fst (span RevB.isAngleChar u'))).
    + inversion H; subst; exact Hg.
    + unfold RevB.orElse in H.
      destruct (RevB.giveBack w3) as [g|] eqn:E3.
      * inversion H; subst. eapply giveBack_dashFree; eauto.
      * eapply giveBack_dashFree; eauto.
  - pose proof (dashFree_span RevB.isAngleChar (b :: u) Ht') as [Hg _].
    destruct (nonEmpty (fst (span RevB.isAngleChar (b :: u)))).
    + inversion H; subst; exact Hg.
    + eapply giveBack_dashFree; eauto.
Qed.

Lemma nameMatch_dashFree entry n :
  RevB.nameMatch entry = Some n -> dashFree entry = true -> dashFree n = true.
Proof.
  unfold RevB.nameMatch. intros H Hs.
  destruct (scan_dashFree _ _ H Hs) as (s' & Hs' & Hm).
  unfold bind in Hm. destruct (key "name" true s') as [r|] eqn:E; [|discriminate].
  pose proof (dashFree_key _ _ _ E Hs') as Hr.
  match type of Hm with
  | (if nonEmpty (fst (span _ ?r1)) then _ else _) = _ =>
      assert (Hr1 : dashFree r1 = true)
  end.
  { destruct r as [|c t]; [exact Hr|].
    destruct (RevB.isQuote c); [eapply dashFree_tail; exact Hr | exact Hr]. }
  pose proof (dashFree_span RevB.isNameChar _ Hr1) as [Hg _].
  match type of Hm with
  | (if ?b then _ else _) = _ => destruct b
  end; [|discriminate].
  inversion Hm; subst; exact Hg.
Qed.

Lemma parseEntry_B_unsigned index entry v :
  dashFree entry = true -> RevB.parseEntry index entry = Ok v -> unsignedView v.
Proof.
  intros He. unfold RevB.parseEntry.
  destruct (RevB.nameMatch entry) as [n|] eqn:En; [|discriminate].
  destruct (RevB.angleMatch entry) as [a|] eqn:Ea; [|discriminate].
  destruct (length (RevB.angleParts a) =? 3); [|discriminate].
  intros H; inversion H; subst; clear H. split; simpl.
  - rewrite dashFree_toLowerCase. eapply nameMatch_dashFree; eauto.
  - apply numbers_unsigned. apply splitRe_keeps_dashFree; [|reflexivity].
    unfold RevB.angleMatch in Ea.
    destruct (scan_dashFree _ _ Ea He) as (s' & Hs' & Hm).
    eapply angleAt_dashFree; eauto.
Qed.

Lemma step_unsigned : forall entries acc,
  Forall (fun ie => dashFree (snd ie) = true) entries ->
  Forall unsignedView (RevB.views_ acc) ->
  Forall unsignedView (RevB.views_ (fold_left RevB.step entries acc)).
Proof.
  induction entries as [|[i e] es IH]; intros acc Hes Hacc; simpl; [exact Hacc|].
  inversion Hes; subst. apply IH; [assumption|].
  destruct (RevB.parseEntry i e) as [v|m] eqn:E; simpl; [|exact Hacc].
  apply Forall_app. split; [exact Hacc|].
  constructor; [eapply parseEntry_B_unsigned; eauto | constructor].
Qed.

Lemma entries_B_dashFree sec :
  Forall (fun ie : nat * jsstring => dashFree (snd ie) = true)
         (RevB.indexed (RevB.viewEntries sec)).
Proof.
  apply Forall_forall. intros [i e] Hin. simpl.
  unfold RevB.indexed in Hin. apply in_combine_r in Hin.
  unfold RevB.viewEntries, filterBoolean in Hin.
  apply filter_In in Hin. destruct Hin as [Hin _].
  pose proof (@splitRe_no_dash sepEntry sepEntry_none sec 0 [] eq_refl) as Hall.
  rewrite Forall_forall in Hall. apply Hall, Hin.
Qed.

(** X2: the views that the parser of part_001 reads from the text never
    have a dash in the name nor a minus sign on an angle, although its name
    pattern admits dashes and its prompt asks for the angles -90. *)
Theorem part_001_parsed_views_unsigned (response : jsstring) :
  Forall unsignedView (RevB.views_ (RevB.parseViews response)).
Proof.
  unfold RevB.parseViews.
  destruct (viewsMatch response) as [sec|]; [|constructor].
  destruct (nonEmpty sec); [|constructor].
  apply step_unsigned; [apply entries_B_dashFree | constructor].
Qed.

Lemma part_000_views_unsigned_witness :
  unsignedView (view3 "front" 0 0 0 150).
Proof.
  apply (@part_000_views_unsigned TestInputs.promptA TestInputs.cube).
  - reflexivity.
  - left. reflexivity.
Defined.

End Dashes.

(** ** The streamed response *)

Module Streaming.
Import Js Num Model Pattern Cli.

Lemma foldA_full : forall chunks st,
  fullResponse (fold_left onChunkA chunks st)
  = fullResponse st ++ concat (deltas chunks)
  /\ stdout (fold_left onChunkA chunks st)
     = stdout st ++ concat (deltas chunks).
Proof.
  induction chunks as [|c cs IH]; intros st; simpl.
  - rewrite !app_nil_r. auto.
  - destruct (IH (onChunkA st c)) as [H1 H2]. rewrite H1, H2.
    destruct c as [text|]; simpl; [|auto].
    rewrite <- !app_assoc. auto.
Qed.

Lemma foldB_full : forall chunks st,
  fullResponse (fold_left onChunkB chunks st)
  = fullResponse st ++ concat (deltas chunks).
Proof.
  induction chunks as [|c cs IH]; intros st; simpl.
  - rewrite app_nil_r. reflexivity.
  - rewrite IH. destruct c as [text|]; simpl; [|reflexivity].
    destruct (isNewline text); simpl; rewrite <- !app_assoc; reflexivity.
Qed.

(** While the flag is set the terminal output ends with a line feed. *)
Lemma foldB_flagged : forall chunks st,
  (lastChunkWasNewline st = true -> exists p, stdout st = p ++ [LF]) ->
  lastChunkWasNewline (fold_left onChunkB chunks st) = true ->
  exists p, stdout (fold_left onChunkB chunks st) = p ++ [LF].
Proof.
  induction chunks as [|c cs IH]; intros st Hst; simpl; [exact Hst|].
  apply IH. destruct c as [text|]; simpl; [|exact Hst].
  unfold isNewline. destruct (Renderer.jsstring_dec text [LF]) as [E|E].
  - intros _. simpl. destruct (lastChunkWasNewline st) eqn:F.
    + apply Hst. reflexivity.
    + exists (stdout st). rewrite E. reflexivity.
  - intros F. discriminate.
Qed.

(** X3: the response handed to the parser is the concatenation of all text
    deltas in order, other events left out; the suppression of repeated
    line feeds in part_001 touches the terminal only, whose output always
    ends with a line feed. *)
Theorem response_is_all_deltas (chunks : list Chunk) :
  fullResponse (receiveA chunks) = concat (deltas chunks)
  /\ fullResponse (receiveB chunks) = concat (deltas chunks)
  /\ stdout (receiveA chunks) = concat (deltas chunks) ++ [LF]
  /\ exists p, stdout (receiveB chunks) = p ++ [LF].
Proof.
  unfold receiveA, receiveB. cbn [fullResponse stdout].
  destruct (foldA_full chunks start) as [HA1 HA2].
  repeat split.
  - exact HA1.
  - apply foldB_full.
  - rewrite HA2. reflexivity.
  - destruct (lastChunkWasNewline (fold_left onChunkB chunks start)) eqn:F.
    + apply foldB_flagged; [discriminate | exact F].
    + eexists. reflexivity.
Qed.

End Streaming.

(** ** The session operations *)

Module SessionFacts.
Import Js Num Model Pattern Session Cli Wire.

Section Facts.

Variable parseJSON : jsstring -> option ProjectState.
Variable stringify : ProjectState -> jsstring.
Variable anthropic : list MessageContent -> jsstring.
Variable now : jsstring.
Variable uuid : jsstring.
Variable parseResponse : jsstring -> result CADModel.

Local Abbreviation create :=
  (createModel stringify anthropic now parseResponse).
Local Abbreviation iterateA :=
  (iterateModelA parseJSON stringify anthropic now parseResponse).
Local Abbreviation iterateB :=
  (iterateModelB parseJSON stringify anthropic now parseResponse).
Local Abbreviation generateA :=
  (generateModelA stringify anthropic now uuid parseResponse).
Local Abbreviation generateB :=
  (generateModelB stringify anthropic now uuid parseResponse).

Lemma lastIteration_snoc st it : lastIteration (extended st it) = Some it.
Proof.
  unfold lastIteration, extended. simpl. rewrite map_app. simpl.
  apply last_last.
Qed.

Lemma createModel_throw s st content fb s' m :
  create s st content fb = (s', Throw m) ->
  stateFile s' = stateFile s /\ sent s' = sent s ++ [content].
Proof.
  unfold createModel.
  destruct (parseResponse (anthropic content)); intros H; inversion H; subst.
  simpl. auto.
Qed.

Lemma createModel_ok s st content fb s' model :
  create s st content fb = (s', Ok model) ->
  parseResponse (anthropic content) = Ok model
  /\ state s' = Some (extended st (appended now model fb))
  /\ stateFile s' = Some (stringify (extended st (appended now model fb)))
  /\ sent s' = sent s ++ [content].
Proof.
  unfold createModel.
  destruct (parseResponse (anthropic content)); intros H; inversion H; subst.
  simpl. auto.
Qed.

(** X4: an operation that throws never writes the state file: neither
    [iterateModel] nor [generateModel], in part_000 and in part_001,
    whether the failure is a missing or unreadable file, an empty history,
    missing renders or a response without code block. *)
Theorem failed_operation_keeps_file (s s' : session) (arg m : jsstring) :
  iterateA s arg = (s', Throw m) \/ iterateB s arg = (s', Throw m)
  \/ generateA s arg = (s', Throw m) \/ generateB s arg = (s', Throw m) ->
  stateFile s' = stateFile s.
Proof.
  intros [H|[H|[H|H]]].
  - unfold iterateModelA in H.
    destruct (loadState parseJSON s) as [st|]; [|inversion H; reflexivity].
    destruct (lastIteration st) as [it|]; [|inversion H; reflexivity].
    apply createModel_throw in H. simpl in H. tauto.
  - unfold iterateModelB in H.
    destruct (loadState parseJSON s) as [st|]; [|inversion H; reflexivity].
    destruct (lastIteration st) as [it|]; [|inversion H; reflexivity].
    destruct (renders it); [inversion H; reflexivity|].
    apply createModel_throw in H. simpl in H. tauto.
  - apply createModel_throw in H. tauto.
  - apply createModel_throw in H. tauto.
Qed.

Lemma renderParts_images rs label :
  imagesOf (renderParts rs label) = map image rs.
Proof.
  induction rs as [|r rs IH]; [reflexivity|].
  simpl. f_equal. exact IH.
Qed.

Lemma message_images st fb rs :
  imagesOf (formatIterationMessageA st fb rs) = map image rs
  /\ imagesOf (formatIterationMessageB st fb rs) = map image rs.
Proof.
  unfold formatIterationMessageA, formatIterationMessageB, imagesOf.
  rewrite !flat_map_app. simpl. rewrite !app_nil_r.
  split; apply renderParts_images.
Qed.

Lemma iterateB_ok (s s' : session) (fb : jsstring) (model : CADModel) :
  iterateB s fb = (s', Ok model) ->
  exists st it content,
    loadState parseJSON s = Some st
    /\ lastIteration st = Some it
    /\ renders it <> []
    /\ sent s' = sent s ++ [content]
    /\ imagesOf content = map image (renders it)
    /\ state s' = Some (extended st (appended now model (Some fb)))
    /\ stateFile s'
       = Some (stringify (extended st (appended now model (Some fb)))).
Proof.
  unfold iterateModelB. intros H.
  destruct (loadState parseJSON s) as [st|]; [|discriminate].
  destruct (lastIteration st) as [it|] eqn:El; [|discriminate].
  destruct (renders it) as [|r rs] eqn:Er; [discriminate|].
  apply createModel_ok in H. destruct H as (_ & H1 & H2 & H3).
  exists st, it, (formatIterationMessageB st fb (r :: rs)).
  repeat split; try assumption.
  - rewrite Er. discriminate.
  - rewrite Er. apply message_images.
Qed.

(** X5: when [iterateModel] of part_001 returns, the state file it read
    had a latest iteration with renders; exactly one request was sent,
    carrying the images of those renders in order; and the state kept and
    written is the one read with a single iteration appended, which has the
    code of the Design, the feedback text and no renders. *)
Theorem iterate_appends_one (s s' : session) (fb : jsstring)
    (model : CADModel) :
  iterateB s fb = (s', Ok model) ->
  exists st it content,
    loadState parseJSON s = Some st
    /\ lastIteration st = Some it
    /\ renders it <> []
    /\ sent s' = sent s ++ [content]
    /\ imagesOf content = map image (renders it)
    /\ state s' = Some (extended st (appended now model (Some fb)))
    /\ stateFile s'
       = Some (stringify (extended st (appended now model (Some fb)))).
Proof. apply iterateB_ok. Qed.

(** X6: feedback cannot be given twice without rendering in between.  In
    part_001, right after [generateModel] or [iterateModel] has returned,
    and with the state file reading back as the state just written, a call
    of [iterateModel] throws for lack of renders, sends nothing and leaves
    the file as it is. *)
Theorem no_second_feedback_before_rendering (s s1 : session)
    (arg fb : jsstring) (model : CADModel) :
  generateB s arg = (s1, Ok model) \/ iterateB s arg = (s1, Ok model) ->
  loadState parseJSON s1 = state s1 ->
  snd (iterateB s1 fb) = Throw (lit "No renders found from previous iteration")
  /\ stateFile (fst (iterateB s1 fb)) = stateFile s1
  /\ sent (fst (iterateB s1 fb)) = sent s1.
Proof.
  intros H Hload.
  assert (Hst : exists st it, state s1 = Some (extended st it) /\ renders it = []).
  { destruct H as [H|H].
    - apply createModel_ok in H. destruct H as (_ & H & _).
      eexists _, _. split; [exact H | reflexivity].
    - apply iterateB_ok in H.
      destruct H as (st & it & c & _ & _ & _ & _ & _ & H & _).
      eexists _, _. split; [exact H | reflexivity]. }
  destruct Hst as (st & it & Hs & Hr). rewrite Hs in Hload.
  exact (Feedback.iterateModelB_no_renders parseJSON stringify anthropic now
           parseResponse s1 fb Hload (lastIteration_snoc st it) Hr).
Qed.

End Facts.

Lemma failed_operation_keeps_file_witness :
  stateFile (fst (iterateModelB TestInputs.readUnrendered
                    TestInputs.countIterations (fun _ => TestInputs.promptA)
                    TestInputs.clock RevB.parseResponse TestInputs.stored
                    (lit "thicker walls")))
  = stateFile TestInputs.stored.
Proof.
  apply (@failed_operation_keeps_file TestInputs.readUnrendered
           TestInputs.countIterations (fun _ => TestInputs.promptA)
           TestInputs.clock (lit "7f3c") RevB.parseResponse
           TestInputs.stored _ (lit "thicker walls")
           (lit "No renders found from previous iteration")).
  right. left. reflexivity.
Defined.

Lemma iterate_appends_one_witness :
  exists st it content,
    loadState Fixtures.readRendered Fixtures.storedRendered = Some st
    /\ lastIteration st = Some it
    /\ renders it <> []
    /\ sent (fst (iterateModelB Fixtures.readRendered
                    TestInputs.countIterations (fun _ => TestInputs.promptA)
                    TestInputs.clock RevA.parseResponse Fixtures.storedRendered
                    (lit "thicker walls")))
       = sent Fixtures.storedRendered ++ [content]
    /\ imagesOf content = map image (renders it).
Proof.
  destruct (@iterate_appends_one Fixtures.readRendered
              TestInputs.countIterations (fun _ => TestInputs.promptA)
              TestInputs.clock RevA.parseResponse Fixtures.storedRendered
              (fst (iterateModelB Fixtures.readRendered
                      TestInputs.countIterations (fun _ => TestInputs.promptA)
                      TestInputs.clock RevA.parseResponse
                      Fixtures.storedRendered (lit "thicker walls")))
              (lit "thicker walls") TestInputs.cube eq_refl)
    as (st & it & content & H1 & H2 & H3 & H4 & H5 & _).
  exists st, it, content. repeat split; assumption.
Defined.

Lemma no_second_feedback_before_rendering_witness :
  snd (iterateModelB TestInputs.readUnrendered TestInputs.countIterations
         (fun _ => TestInputs.promptA) Fixtures.firstStamp RevA.parseResponse
         (fst (generateModelB TestInputs.countIterations
                 (fun _ => TestInputs.promptA) Fixtures.firstStamp (lit "7f3c")
                 RevA.parseResponse TestInputs.stored (lit "a 20mm cube")))
         (lit "thicker walls"))
  = Throw (lit "No renders found from previous iteration").
Proof.
  apply (@no_second_feedback_before_rendering TestInputs.readUnrendered
           TestInputs.countIterations (fun _ => TestInputs.promptA)
           Fixtures.firstStamp (lit "7f3c") RevA.parseResponse
           TestInputs.stored _ (lit "a 20mm cube") (lit "thicker walls")
           TestInputs.cube).
  - left. reflexivity.
  - reflexivity.
Defined.

End SessionFacts.

(** ** The scratch workspace *)

Module Workspace.
Import Js Num Model Pattern Renderer.

Lemma rm_spec d x l : In x (rm d l) <-> In x l /\ x <> d.
Proof.
  unfold rm. split.
  - apply in_remove.
  - intros [H1 H2]. apply in_in_remove; assumption.
Qed.

Lemma mkdir_spec d x l : In x (mkdir d l) <-> x = d \/ In x l.
Proof.
  unfold mkdir. destruct (in_dec jsstring_dec d l) as [Hin|Hn]; simpl.
  - split; [auto | intros [E|H]; [subst; exact Hin | exact H]].
  - split; intros [E|H]; auto.
Qed.

Lemma cleanup_disk r x :
  In x (disk (cleanup r)) <-> In x (disk r) /\ tempDir r <> Some x.
Proof.
  unfold cleanup, existsSync. destruct (tempDir r) as [d|]; simpl.
  - destruct (in_dec jsstring_dec d (disk r)) as [Hin|Hn].
    + rewrite rm_spec. split; intros [H1 H2]; split; try assumption; congruence.
    + split; [|tauto]. intros H. split; [exact H|].
      intros E. inversion E; subst. contradiction.
  - split; [|tauto]. intros H; split; [exact H | discriminate].
Qed.

(** X7: [cleanup] of part_000 and part_001 forgets the scratch directory
    and removes it from the disk, and removes nothing else. *)
Theorem cleanup_removes_only_scratch (r : renderer) :
  tempDir (cleanup r) = None
  /\ forall x, In x (disk (cleanup r)) <-> In x (disk r) /\ tempDir r <> Some x.
Proof.
  split; [|intros x; apply cleanup_disk].
  unfold cleanup. destruct (tempDir r); reflexivity.
Qed.

Section Exits.

Variable Camera : Type.
Variable cameraParams : ViewSpec -> Camera.
Variable failure : ViewSpec -> jsstring -> jsstring.
Variable kernel : nat -> jsstring -> Camera -> ViewSpec -> result jsstring.
Variable now : jsstring.

(** The shape shared by [render] of part_000 and of part_001. *)
Local Abbreviation renderAB r model :=
  (loop (fun v => Ok (cameraParams v)) failure cleanup cleanup kernel
        (code model)
        {| tempDir := Some (scratchName now);
           disk := mkdir (scratchName now) (disk (cleanup r)) |}
        0 (views model) []).

Lemma renderAB_disk r model r' out :
  renderAB r model = (r', out) ->
  tempDir r' = None
  /\ forall x, In x (disk r')
       <-> In x (disk r) /\ x <> scratchName now /\ tempDir r <> Some x.
Proof.
  intros H.
  assert (Hr : r' = cleanup {| tempDir := Some (scratchName now);
                               disk := mkdir (scratchName now) (disk (cleanup r)) |}).
  { destruct out as [rs|m].
    - apply Rendering.loop_ok in H. tauto.
    - apply Rendering.loop_throw in H. tauto. }
  subst r'. split.
  - reflexivity.
  - intros x. rewrite cleanup_disk. cbn [disk tempDir].
    rewrite mkdir_spec, cleanup_disk. split.
    + intros [[E|[H1 H2]] H3]; [congruence|].
      repeat split; try assumption. congruence.
    + intros (H1 & H2 & H3). split; [right; split; assumption | congruence].
Qed.

End Exits.

(** X8: however [render] of part_000 or part_001 ends, by returning or by
    throwing at a view, the renderer holds no scratch directory afterwards
    and the disk is the one before the call without the scratch directory of
    this call and without the one left from an earlier call. *)
Theorem render_leaves_no_scratch (now : jsstring)
    (kernelA : nat -> jsstring -> GimbalCamera -> ViewSpec -> result jsstring)
    (kernelB : nat -> jsstring -> EyeCentre -> ViewSpec -> result jsstring)
    (r r' : renderer) (model : CADModel) (out : result (list RenderResult)) :
  renderA now kernelA r model = (r', out)
  \/ renderB now kernelB r model = (r', out) ->
  tempDir r' = None
  /\ forall x, In x (disk r')
       <-> In x (disk r) /\ x <> scratchName now /\ tempDir r <> Some x.
Proof.
  intros [H|H].
  - eapply renderAB_disk with (cameraParams := cameraParamsA); exact H.
  - eapply renderAB_disk with (cameraParams := cameraParamsB); exact H.
Qed.

Lemma render_leaves_no_scratch_witness :
  In (lit "/tmp/keep") [lit "/tmp/keep"]
  <-> In (lit "/tmp/keep") (disk Kernels.stale)
      /\ lit "/tmp/keep" <> scratchName TestInputs.clock
      /\ tempDir Kernels.stale <> Some (lit "/tmp/keep").
Proof.
  apply (proj2 (@render_leaves_no_scratch TestInputs.clock
                  (@Kernels.always GimbalCamera) (@Kernels.always EyeCentre)
                  Kernels.stale
                  {| tempDir := None; disk := [lit "/tmp/keep"] |}
                  TestInputs.cube
                  (Ok [ {| view := lit "front"; image := lit "png" |};
                        {| view := lit "top"; image := lit "png" |};
                        {| view := lit "iso"; image := lit "png" |} ])
                  (or_intror eq_refl))
               (lit "/tmp/keep")).
Defined.

End Workspace.

(** ** What the render loop returns and where it stops *)

Module LoopOutcome.
Import Js Num Model Pattern Renderer.

Section Generic.

Variable Camera : Type.
Variable cameraParams : ViewSpec -> result Camera.
Variable failure : ViewSpec -> jsstring -> jsstring.
Variables onCatch onReturn : renderer -> renderer.
Variable kernel : nat -> jsstring -> Camera -> ViewSpec -> result jsstring.
Variable source : jsstring.

Local Abbreviation run :=
  (loop cameraParams failure onCatch onReturn kernel source).

(** The view at [j] was accepted and rendered at position [i + j]. *)
Lemma loop_ok_each : forall todo r i renders r' rs,
  run r i todo renders = (r', Ok rs) ->
  forall j u, nth_error todo j = Some u ->
    exists cam img,
      cameraParams u = Ok cam
      /\ kernel (i + j) source cam u = Ok img
      /\ nth_error rs (length renders + j)
         = Some {| view := name u; image := img |}.
Proof.
  induction todo as [|v rest IH]; intros r i renders r' rs H j u Hj.
  - destruct j; discriminate.
  - simpl in H.
    destruct (cameraParams v) as [cam|m] eqn:Ec; [|discriminate].
    destruct (kernel i source cam v) as [img|m] eqn:Ek; [|discriminate].
    destruct j as [|j]; simpl in Hj.
    + inversion Hj; subst u. exists cam, img.
      rewrite !Nat.add_0_r. repeat split; try assumption.
      assert (Hpre : forall todo r i renders r' rs,
                 run r i todo renders = (r', Ok rs) ->
                 firstn (length renders) rs = renders).
      { clear. induction todo as [|v rest IH]; intros r i renders r' rs H.
        - simpl in H. inversion H; subst. apply firstn_all.
        - simpl in H.
          destruct (cameraParams v) as [cam|m]; [|discriminate].
          destruct (kernel i source cam v) as [img|m]; [|discriminate].
          apply IH in H. unfold pushRender in H.
          rewrite length_app in H. simpl in H.
          assert (E : firstn (length renders) (firstn (length renders + 1) rs)
                      = firstn (length renders)
                          (renders ++ [{| view := name v; image := img |}]))
            by (rewrite H; reflexivity).
          rewrite firstn_firstn in E.
          replace (Nat.min (length renders) (length renders + 1))
            with (length renders) in E by lia.
          rewrite E, firstn_app, firstn_all, Nat.sub_diag. simpl.
          apply app_nil_r. }
      apply Hpre in H. unfold pushRender in H.
      rewrite length_app in H. simpl in H.
      assert (E : nth_error (firstn (length renders + 1) rs) (length renders)
                  = nth_error (renders ++ [{| view := name v; image := img |}])
                              (length renders))
        by (rewrite H; reflexivity).
      rewrite nth_error_firstn in E.
      destruct (Nat.ltb_spec (length renders) (length renders + 1)); [|lia].
      rewrite E, nth_error_app2, Nat.sub_diag by lia. reflexivity.
    + destruct (IH _ _ _ _ _ H j u Hj) as (cam' & img' & H1 & H2 & H3).
      exists cam', img'. repeat split; try assumption.
      * rewrite <- H2. f_equal. lia.
      * rewrite <- H3. f_equal. unfold pushRender. rewrite length_app.
        simpl. lia.
Qed.

(** The loop stops at the first view that fails. *)
Lemma loop_first_failure : forall pre r i renders v post cause,
  (forall j u, nth_error pre j = Some u ->
     exists cam img, cameraParams u = Ok cam
                     /\ kernel (i + j) source cam u = Ok img) ->
  (cameraParams v = Throw cause
   \/ exists cam, cameraParams v = Ok cam
                  /\ kernel (i + length pre) source cam v = Throw cause) ->
  run r i (pre ++ v :: post) renders = (onCatch r, Throw (failure v cause)).
Proof.
  induction pre as [|u pre IH]; intros r i renders v post cause Hpre Hv.
  - simpl. destruct Hv as [Hv|(cam & Hc & Hk)].
    + rewrite Hv. reflexivity.
    + rewrite Hc. rewrite Nat.add_0_r in Hk. rewrite Hk. reflexivity.
  - simpl. destruct (Hpre 0 u eq_refl) as (cam & img & Hc & Hk).
    rewrite Nat.add_0_r in Hk. rewrite Hc, Hk. apply IH.
    + intros j w Hj. destruct (Hpre (S j) w Hj) as (cam' & img' & H1 & H2).
      exists cam', img'. split; [exact H1|]. rewrite <- H2. f_equal. lia.
    + destruct Hv as [Hv|(cam' & H1 & H2)]; [left; exact Hv|].
      right. exists cam'. split; [exact H1|]. rewrite <- H2. f_equal.
      simpl. lia.
Qed.

End Generic.

End LoopOutcome.

(** ** Outcomes of [render] *)

Module RenderOutcome.
Import Js Num Model Pattern Renderer Kernels LoopOutcome.

(** X9: when [render] returns, every view of the Design was handed to the
    kernel once, at its position, with the camera derived from that view,
    and the result at the same position carries the name of the view and
    the image the kernel gave for it (part_000 and part_001). *)
Theorem render_results_from_kernel (now : jsstring)
    (kernelA : nat -> jsstring -> GimbalCamera -> ViewSpec -> result jsstring)
    (kernelB : nat -> jsstring -> EyeCentre -> ViewSpec -> result jsstring)
    (r r' : renderer) (model : CADModel) (rs : list RenderResult)
    (j : nat) (u : ViewSpec) :
  nth_error (views model) j = Some u ->
  (renderA now kernelA r model = (r', Ok rs) ->
     exists img, kernelA j (code model) (cameraParamsA u) u = Ok img
       /\ nth_error rs j = Some {| view := name u; image := img |})
  /\ (renderB now kernelB r model = (r', Ok rs) ->
     exists img, kernelB j (code model) (cameraParamsB u) u = Ok img
       /\ nth_error rs j = Some {| view := name u; image := img |}).
Proof.
  intros Hj. split; intros H.
  - eapply loop_ok_each with (j := j) (u := u) in H; [|exact Hj].
    destruct H as (cam & img & Hc & Hk & Hn).
    inversion Hc; subst cam. exists img. split; assumption.
  - eapply loop_ok_each with (j := j) (u := u) in H; [|exact Hj].
    destruct H as (cam & img & Hc & Hk & Hn).
    inversion Hc; subst cam. exists img. split; assumption.
Qed.

Lemma render_results_from_kernel_witness :
  exists img,
    always 1 (code TestInputs.cube) (cameraParamsB (view3 "top" 90 0 0 200))
           (view3 "top" 90 0 0 200) = Ok img
    /\ nth_error [ {| view := lit "front"; image := lit "png" |};
                   {| view := lit "top"; image := lit "png" |};
                   {| view := lit "iso"; image := lit "png" |} ] 1
       = Some {| view := name (view3 "top" 90 0 0 200); image := img |}.
Proof.
  apply (proj2 (@render_results_from_kernel TestInputs.clock
                  (@always GimbalCamera) (@always EyeCentre)
                  TestInputs.fresh TestInputs.fresh TestInputs.cube
                  _ 1 (view3 "top" 90 0 0 200) eq_refl)).
  reflexivity.
Defined.

(** X10: [render] of part_001 stops at the first view whose kernel call
    throws: when the views before it were rendered, the call throws the
    error that names this view and gives the cause, whatever the kernel
    would do for the views after it. *)
Theorem render_stops_at_first_failure (now : jsstring)
    (kernel : nat -> jsstring -> EyeCentre -> ViewSpec -> result jsstring)
    (r : renderer) (model : CADModel) (pre post : list ViewSpec)
    (v : ViewSpec) (cause : jsstring) :
  views model = pre ++ v :: post ->
  (forall j u, nth_error pre j = Some u ->
     exists img, kernel j (code model) (cameraParamsB u) u = Ok img) ->
  kernel (length pre) (code model) (cameraParamsB v) v = Throw cause ->
  snd (renderB now kernel r model)
  = Throw (lit "Failed to render " ++ name v ++ lit ": " ++ cause).
Proof.
  intros Hv Hpre Hk. unfold renderB. rewrite Hv.
  erewrite loop_first_failure; [reflexivity | |].
  - intros j u Hj. destruct (Hpre j u Hj) as [img Hi].
    exists (cameraParamsB u), img. split; [reflexivity | exact Hi].
  - right. exists (cameraParamsB v). split; [reflexivity | exact Hk].
Qed.

Lemma render_stops_at_first_failure_witness :
  snd (renderB TestInputs.clock (@failsSecond EyeCentre) TestInputs.fresh
         TestInputs.cube)
  = Throw (lit "Failed to render top: boom").
Proof.
  apply (@render_stops_at_first_failure TestInputs.clock
           (@failsSecond EyeCentre) TestInputs.fresh TestInputs.cube
           [view3 "front" 0 0 0 150] [view3 "iso" 45 35 15 250]
           (view3 "top" 90 0 0 200) (lit "boom")).
  - reflexivity.
  - intros [|j] u Hj; [|destruct j; discriminate].
    exists (lit "png"). reflexivity.
  - reflexivity.
Defined.

(** "d <= 0" is false exactly when d is above 0 or is NaN. *)
Lemma nonPositive_false d :
  nonPositive d = false <-> positive d = true \/ isNaN d = true.
Proof.
  destruct d as [|neg|neg m e]; simpl.
  - split; [right; reflexivity | reflexivity].
  - destruct neg; simpl; split; try tauto; try discriminate.
    intros [H|H]; discriminate.
  - unfold positive, ltb, scaled.
    assert (Hp : (0 < 10 ^ (e - Z.min 0 e))%Z)
      by (apply Z.pow_pos_nonneg; lia).
    replace (10 ^ (0 - Z.min 0 e))%Z with (10 ^ (0 - Z.min 0 e) * 1)%Z by lia.
    split.
    + intros H. left. apply orb_false_iff in H as [Hm Hn]. subst neg.
      apply N.eqb_neq in Hm. apply Z.ltb_lt. nia.
    + intros [H|H]; [|discriminate]. apply Z.ltb_lt in H.
      apply orb_false_iff. split.
      * apply N.eqb_neq. intros E. subst m. simpl in H. lia.
      * destruct neg; [|reflexivity]. exfalso. nia.
Qed.

Lemma cameraParamsC_ok v cam :
  cameraParamsC v = Ok cam -> acceptedByC v.
Proof.
  unfold cameraParamsC, acceptedByC.
  destruct (length (angle v) =? 3) eqn:El; simpl; [|discriminate].
  destruct (nonPositive (distance v)) eqn:Ed; [discriminate|].
  intros _. split; [apply Nat.eqb_eq, El | apply nonPositive_false, Ed].
Qed.

Lemma cameraParamsC_accepts v :
  acceptedByC v -> cameraParamsC v = Ok {| eye_z := distance v |}.
Proof.
  intros [Hl Hd]. apply nonPositive_false in Hd.
  unfold cameraParamsC. rewrite Hl, Hd. reflexivity.
Qed.

(** X11: [render] of the first program of index.ts returns only for a
    Design all of whose views have exactly 3 angles and a distance that is
    above 0 or is NaN; when the views before one with 3 angles and a
    distance of 0 or less were rendered, it throws the distance error for
    that view without asking the kernel; a view with 3 angles and the
    distance NaN passes the check and reaches the kernel. *)
Theorem renderC_checks_views (now : jsstring)
    (kernel : nat -> jsstring -> EyeOnly -> ViewSpec -> result jsstring)
    (r : renderer) (model : CADModel) :
  (forall r' rs, renderC now kernel r model = (r', Ok rs) ->
     Forall acceptedByC (views model))
  /\ (forall pre v post,
       views model = pre ++ v :: post ->
       (forall j u, nth_error pre j = Some u ->
          acceptedByC u
          /\ exists img, kernel j (code model) {| eye_z := distance u |} u
                         = Ok img) ->
       length (angle v) = 3 -> nonPositive (distance v) = true ->
       snd (renderC now kernel r model)
       = Throw (lit "Failed to render view " ++ name v
                ++ lit ": Invalid distance value for view " ++ name v))
  /\ (forall v, length (angle v) = 3 -> isNaN (distance v) = true ->
       cameraParamsC v = Ok {| eye_z := distance v |}).
Proof.
  split; [|split].
  - intros r' rs H. apply Forall_forall. intros u Hin.
    apply In_nth_error in Hin. destruct Hin as [j Hj].
    eapply loop_ok_each with (j := j) (u := u) in H; [|exact Hj].
    destruct H as (cam & img & Hc & _).
    eapply cameraParamsC_ok; exact Hc.
  - intros pre v post Hv Hpre Hl Hd. unfold renderC. rewrite Hv.
    erewrite loop_first_failure with (cause := lit "Invalid distance value for view " ++ name v);
      [reflexivity | |].
    + intros j u Hj. destruct (Hpre j u Hj) as [Hu [img Hi]].
      exists {| eye_z := distance u |}, img. split; [|exact Hi].
      apply cameraParamsC_accepts, Hu.
    + left. unfold cameraParamsC. rewrite Hl, Hd. reflexivity.
  - intros v Hl Hn. apply cameraParamsC_accepts. split; [exact Hl|].
    right. exact Hn.
Qed.

Lemma renderC_checks_views_witness :
  snd (renderC TestInputs.clock (@always EyeOnly) TestInputs.fresh flat)
  = Throw (lit "Failed to render view top: Invalid distance value for view top").
Proof.
  apply (proj1 (proj2 (@renderC_checks_views TestInputs.clock
                         (@always EyeOnly) TestInputs.fresh flat))
               [view3 "front" 0 0 0 150] (view3 "top" 90 0 0 0) []).
  - reflexivity.
  - intros [|j] u Hj; [|destruct j; discriminate].
    inversion Hj; subst u. split; [split; [reflexivity | left; reflexivity]|].
    exists (lit "png"). reflexivity.
  - reflexivity.
  - reflexivity.
Defined.

End RenderOutcome.

(** ** The Design returned by the parsers *)

Module Designs.
Import Js Num Model Pattern Spec Edges.

(** X12: a Design returned by the parser of part_000 has at least 3 views,
    one returned by the parser of part_001 at least 4. *)
Theorem design_has_enough_views (response : jsstring) (m : CADModel) :
  (RevA.parseResponse response = Ok m -> 3 <= length (views m))
  /\ (RevB.parseResponse response = Ok m -> 4 <= length (views m)).
Proof.
  split; intros H.
  - unfold RevA.parseResponse in H.
    destruct (codeMatch IgnoreCase response); [|discriminate].
    unfold RevA.MIN_VIEWS in H.
    destruct (Nat.leb_spec 3 (length (RevA.parsedViews response)));
      injection H as Hm; rewrite <- Hm; cbn [views]; [assumption | simpl; lia].
  - unfold RevB.parseResponse in H.
    destruct (codeMatch IgnoreCase response); [|discriminate].
    destruct (Nat.ltb_spec 3 (length (RevB.views_ (RevB.parseViews response))));
      injection H as Hm; rewrite <- Hm; cbn [views]; [lia | simpl; lia].
Qed.

Lemma design_has_enough_views_witness :
  3 <= length (views TestInputs.cube).
Proof.
  apply (proj1 (@design_has_enough_views TestInputs.promptA TestInputs.cube)).
  reflexivity.
Defined.

Lemma dropSpaces_head s c :
  hd_error (dropSpaces s) = Some c -> isSpace c = false.
Proof.
  induction s as [|x s IH]; simpl; [discriminate|].
  destruct (isSpace x) eqn:E; [exact IH|].
  simpl. intros H; inversion H; subst; exact E.
Qed.

(** [dropSpaces] keeps the last character of what it leaves. *)
Lemma dropSpaces_last s c :
  hd_error (rev (dropSpaces s)) = Some c -> hd_error (rev s) = Some c.
Proof.
  induction s as [|x s IH]; simpl; [auto|].
  destruct (isSpace x); simpl; [|auto].
  intros H. apply IH in H. destruct (rev s); [discriminate|exact H].
Qed.

Lemma trim_trimmed s : trimmed (trim s).
Proof.
  unfold trimmed, trim. intros c [H|H].
  - apply dropSpaces_last in H. rewrite rev_involutive in H.
    eapply dropSpaces_head; exact H.
  - rewrite rev_involutive in H. eapply dropSpaces_head; exact H.
Qed.

(** X13: the code of a Design returned by any of the regex parsers neither
    starts nor ends with white space. *)
Theorem design_code_is_trimmed (response : jsstring) (m : CADModel) :
  RevA.parseResponse response = Ok m \/ RevB.parseResponse response = Ok m
  \/ RevC.parseResponse response = Ok m ->
  trimmed (code m).
Proof.
  unfold RevA.parseResponse, RevB.parseResponse, RevC.parseResponse.
  intros [H|[H|H]].
  - destruct (codeMatch IgnoreCase response); [|discriminate].
    inversion H; subst. apply trim_trimmed.
  - destruct (codeMatch IgnoreCase response); [|discriminate].
    inversion H; subst. apply trim_trimmed.
  - destruct (codeMatch CaseSensitive response); [|discriminate].
    inversion H; subst. apply trim_trimmed.
Qed.

Lemma design_code_is_trimmed_witness : trimmed (lit "cube(1);").
Proof.
  apply (@design_code_is_trimmed TestInputs.twoSections
           {| code := lit "cube(1);"; views := RevB.defaultViews |}).
  right. left. reflexivity.
Defined.

Lemma parseView_converted e v : RevC.parseView e = Ok v -> convertedC e v.
Proof.
  unfold RevC.parseView, convertedC.
  destruct (quotedName e) as [n|]; [|discriminate].
  destruct (bracketAngle e) as [a|]; [|discriminate].
  destruct (length (map Number (split sepComma a)) =? 3) eqn:El;
    simpl; [|discriminate].
  destruct (existsb isNaN (map Number (split sepComma a))) eqn:En;
    [discriminate|].
  intros H; inversion H; subst; clear H. simpl. repeat split.
  - apply Nat.eqb_eq, El.
  - clear El. induction (map Number (split sepComma a)) as [|x l IH];
      [reflexivity|].
    simpl in *. apply orb_false_iff in En as [E1 E2].
    unfold numeric at 1. rewrite E1. simpl. apply IH, E2.
Qed.

Lemma mapViews_all : forall entries vs,
  RevC.mapViews entries = Ok vs -> Forall2 convertedC entries vs.
Proof.
  induction entries as [|e es IH]; intros vs H; simpl in H.
  - inversion H; constructor.
  - destruct (RevC.parseView e) as [v|] eqn:Ev; [|discriminate].
    destruct (RevC.mapViews es) as [vs'|]; [|discriminate].
    inversion H; subst. constructor; [apply parseView_converted, Ev | auto].
Qed.

(** X14: the views of a Design returned by the first program of index.ts
    are all or nothing: either its two defaults, or one view for every
    entry of the views section, in order, with the name as written (not
    lower-cased); never a part of the entries. *)
Theorem index_views_all_or_defaults (response : jsstring) (m : CADModel) :
  RevC.parseResponse response = Ok m ->
  views m = RevC.defaultViews
  \/ exists section, viewsMatch response = Some section
       /\ Forall2 convertedC (RevC.viewEntries section) (views m).
Proof.
  unfold RevC.parseResponse. intros H.
  destruct (codeMatch CaseSensitive response); [|discriminate].
  inversion H; subst; clear H. cbn [views].
  destruct (viewsMatch response) as [sec|]; [|left; reflexivity].
  destruct (RevC.mapViews (RevC.viewEntries sec)) as [vs|] eqn:E;
    [|left; reflexivity].
  right. exists sec. split; [reflexivity | apply mapViews_all, E].
Qed.

Lemma index_views_all_or_defaults_witness :
  views TestInputs.cube = RevC.defaultViews
  \/ exists section, viewsMatch TestInputs.promptA = Some section
       /\ Forall2 convertedC (RevC.viewEntries section) (views TestInputs.cube).
Proof.
  apply (@index_views_all_or_defaults TestInputs.promptA TestInputs.cube).
  reflexivity.
Defined.

Lemma indexed_length (A : Type) (l : list A) :
  length (RevB.indexed l) = length l.
Proof.
  unfold RevB.indexed. rewrite length_combine, length_seq. apply Nat.min_id.
Qed.

(** X15: in part_001 every entry of a non-empty views section gives
    exactly one view or one warning: the views and the warnings together
    are as many as the entries. *)
Theorem every_entry_view_or_warning (response section : jsstring) :
  viewsMatch response = Some section -> nonEmpty section = true ->
  length (RevB.views_ (RevB.parseViews response))
  + length (RevB.viewErrors (RevB.parseViews response))
  = length (RevB.viewEntries section).
Proof.
  intros Hm Hn. unfold RevB.parseViews. rewrite Hm, Hn.
  rewrite NegativeAngles.step_view_or_warning. simpl.
  apply indexed_length.
Qed.

Lemma every_entry_view_or_warning_witness :
  length (RevB.views_ (RevB.parseViews TestInputs.promptB))
  + length (RevB.viewErrors (RevB.parseViews TestInputs.promptB))
  = 9.
Proof.
  exact (@every_entry_view_or_warning TestInputs.promptB
           (skipn 40 TestInputs.promptB) eq_refl eq_refl).
Defined.

Lemma strip_any_case p : forall s r,
  strip CaseSensitive p s = Some r -> strip IgnoreCase p s = Some r.
Proof.
  induction p as [|a p IH]; intros s r H; simpl in *; [exact H|].
  destruct s as [|c s]; [discriminate|].
  destruct (Ascii.eqb a c) eqn:E; [|discriminate].
  apply Ascii.eqb_eq in E. subst c. rewrite Ascii.eqb_refl. apply IH, H.
Qed.

Lemma occursAt_any_case p s k :
  occursAt CaseSensitive p s k -> occursAt IgnoreCase p s k.
Proof.
  intros [Hk H]. split; [exact Hk|].
  apply JsFacts.starts_strip in H. destruct H as [r H].
  apply JsFacts.starts_strip. exists r. apply strip_any_case, H.
Qed.

(** X16: tags in lower case are accepted by every regex parser: a response
    for which the first program of index.ts returns a Design gets one from
    part_000 and part_001 as well; the converse fails, for instance on tags
    in upper case. *)
Theorem lower_case_tags_accepted_everywhere :
  (forall response,
      returns (RevC.parseResponse response) = true ->
      returns (RevA.parseResponse response) = true
      /\ returns (RevB.parseResponse response) = true)
  /\ (exists response,
        returns (RevB.parseResponse response) = true
        /\ returns (RevC.parseResponse response) = false).
Proof.
  split.
  - intros response H.
    assert (Hc : hasCodeBlock IgnoreCase response).
    { unfold returns, RevC.parseResponse in H.
      destruct (codeMatch CaseSensitive response) as [b|] eqn:E;
        [|discriminate].
      apply CodeBlock.codeMatch_some in E.
      destruct E as (i & j & Hi & Hj & Hij).
      exists i, j. split; [apply occursAt_any_case, Hi|].
      split; [apply occursAt_any_case, Hj | exact Hij]. }
    apply Threshold.hasCodeBlock_match in Hc. destruct Hc as [b Hb].
    unfold returns, RevA.parseResponse, RevB.parseResponse.
    rewrite Hb. split; reflexivity.
  - exists (lit "<OPENSCAD>cube(20);</OPENSCAD>"). split; reflexivity.
Qed.

End Designs.

(** ** The camera policy of part_000 *)

Module CameraPolicy.
Import Js Num Model Pattern Renderer.

Lemma max_not_below d :
  isNaN d = false -> ltb (Num.max d baseDistance) baseDistance = false.
Proof.
  intros Hd. destruct d as [|neg|neg m e]; [discriminate| |].
  - destruct neg; reflexivity.
  - change baseDistance with (Dec false 100 0).
    unfold Num.max.
    destruct (ltb (Dec neg m e) (Dec false 100 0)) eqn:E;
      [reflexivity | exact E].
Qed.

(** X17: in part_000 the camera distance is never below the floor of 100,
    for any view whose distance is a number; a view named "front", "top" or
    "iso" gets a fixed camera whatever its angles and distance are; any
    other view gets its own first three angles and the larger of its
    distance and the floor. *)
Theorem camera_policy (v : ViewSpec) :
  (isNaN (distance v) = false ->
     ltb (dist (cameraParamsA v)) baseDistance = false)
  /\ (nameIs "front" v || nameIs "top" v || nameIs "iso" v = true ->
     forall w, name w = name v -> cameraParamsA w = cameraParamsA v)
  /\ (nameIs "front" v || nameIs "top" v || nameIs "iso" v = false ->
     rotate (cameraParamsA v) = firstn 3 (angle v)
     /\ dist (cameraParamsA v) = Num.max (distance v) baseDistance).
Proof.
  repeat split.
  - intros Hd. unfold cameraParamsA.
    destruct (nameIs "front" v); [reflexivity|].
    destruct (nameIs "top" v); [reflexivity|].
    destruct (nameIs "iso" v); [reflexivity|].
    simpl. apply max_not_below, Hd.
  - intros Hn w Hw. unfold cameraParamsA, nameIs in *. rewrite Hw.
    destruct (jsstring_dec (name v) (lit "front")); [reflexivity|].
    destruct (jsstring_dec (name v) (lit "top")); [reflexivity|].
    destruct (jsstring_dec (name v) (lit "iso")); [reflexivity|].
    discriminate.
  - unfold cameraParamsA.
    destruct (nameIs "front" v); [discriminate|].
    destruct (nameIs "top" v); [discriminate|].
    destruct (nameIs "iso" v); [discriminate|]. reflexivity.
  - unfold cameraParamsA.
    destruct (nameIs "front" v); [discriminate|].
    destruct (nameIs "top" v); [discriminate|].
    destruct (nameIs "iso" v); [discriminate|]. reflexivity.
Qed.

Lemma camera_policy_witness :
  ltb (dist (cameraParamsA (view3 "side" 0 90 0 50))) baseDistance = false
  /\ dist (cameraParamsA (view3 "side" 0 90 0 300)) = ofZ 300.
Proof.
  split.
  - apply (proj1 (camera_policy (view3 "side" 0 90 0 50))). reflexivity.
  - apply (proj2 (proj2 (camera_policy (view3 "side" 0 90 0 300)))).
    reflexivity.
Defined.

End CameraPolicy.

(** ** Attaching the renders *)

Module Attach.
Import Js Num Model Pattern Session Cli.

Lemma setLastRenders_snoc rs it : forall pre,
  setLastRenders (pre ++ [it]) rs
  = Some (pre ++ [ {| timestamp := timestamp it; it_code := it_code it;
                     renders := rs; feedback := feedback it |} ]).
Proof.
  induction pre as [|x pre IH]; [reflexivity|].
  cbn [app setLastRenders]. rewrite IH.
  destruct (pre ++ [it]) eqn:E; [|reflexivity].
  exfalso. eapply app_cons_not_nil. symmetry. exact E.
Qed.

(** X18: the assignment that ends both commands changes the renders of the
    latest iteration only: the iterations before it, and the time stamp, the
    code and the feedback of the latest one, stay as they are; on an empty
    history it fails. *)
Theorem attach_touches_only_latest (rs : list RenderResult) :
  setLastRenders [] rs = None
  /\ forall pre it,
       setLastRenders (pre ++ [it]) rs
       = Some (pre ++ [ {| timestamp := timestamp it; it_code := it_code it;
                          renders := rs; feedback := feedback it |} ]).
Proof.
  split; [reflexivity | intros pre it; apply setLastRenders_snoc].
Qed.

End Attach.

(** ** The create command, end to end *)

Module Commands.
Import Js Num Model Pattern Session Renderer Cli Wire.

Section Create.

Variable parseJSON : jsstring -> option ProjectState.
Variable stringify : ProjectState -> jsstring.
Variable anthropic : list MessageContent -> jsstring.
Variable now : jsstring.
Variable uuid : jsstring.
Variable parseResponse : jsstring -> result CADModel.
Variable readError : jsstring.
Variable typeError : jsstring.
Variable renderTime : jsstring.
Variable kernel : nat -> jsstring -> EyeCentre -> ViewSpec -> result jsstring.

Local Abbreviation generate :=
  (generateModelB stringify anthropic now uuid parseResponse).
Local Abbreviation iterate :=
  (iterateModelB parseJSON stringify anthropic now parseResponse).
Local Abbreviation create prompt :=
  (action parseJSON stringify readError typeError
          (fun s => generate s prompt) (renderB renderTime kernel)).

(** The project after [generateModel]: one iteration, with these renders. *)
Local Abbreviation firstProject prompt model rs :=
  {| id := uuid; originalPrompt := prompt;
     iterations := [ {| timestamp := now; it_code := code model;
                        renders := rs; feedback := None |} ] |}.

Lemma generate_ok s prompt s1 model :
  generate s prompt = (s1, Ok model) ->
  parseResponse (anthropic [TextContent (formatInitialPrompt prompt)]) = Ok model
  /\ state s1 = Some (firstProject prompt model [])
  /\ stateFile s1 = Some (stringify (firstProject prompt model [])).
Proof.
  intros H. unfold generateModelB in H.
  apply SessionFacts.createModel_ok in H.
  destruct H as (H1 & H2 & H3 & _). auto.
Qed.

(** X19: when the create command succeeds, and the state file written by
    [generateModel] reads back as the state it holds, the file finally
    written holds a project with the new id and the prompt and exactly one
    iteration: the code of the Design, no feedback, and one render per view
    of the Design, in order; the renderer holds no scratch directory. *)
Theorem create_records_one_rendered_iteration (s s2 : session)
    (r r2 : renderer) (prompt : jsstring) :
  create prompt s r = (s2, r2, Ok tt) ->
  (forall s1 model, generate s prompt = (s1, Ok model) ->
     loadState parseJSON s1 = state s1) ->
  exists model rs,
    parseResponse (anthropic [TextContent (formatInitialPrompt prompt)])
    = Ok model
    /\ map view rs = map name (views model)
    /\ stateFile s2 = Some (stringify (firstProject prompt model rs))
    /\ tempDir r2 = None.
Proof.
  unfold action. intros H Hread.
  destruct (generate s prompt) as [s1 [model|m]] eqn:Eg; [|discriminate].
  destruct (renderB renderTime kernel r model) as [r1 [rs|m]] eqn:Er;
    [|discriminate].
  pose proof (Hread _ _ eq_refl) as Hl.
  destruct (generate_ok _ _ Eg) as (Hp & Hs & Hf).
  rewrite Hs in Hl. unfold loadState in Hl.
  unfold attachRenders in H. rewrite Hl in H. simpl in H.
  inversion H; subst; clear H.
  apply Rendering.renderB_exits in Er. destruct Er as (Ht & _ & Hm).
  exists model, rs. repeat split; assumption.
Qed.

(** X20: when [generateModel] has returned and the rendering throws, the
    create command ends with that error and the state file still holds the
    new iteration without renders; with the file reading back as written,
    feedback is then refused for lack of renders. *)
Theorem failed_render_blocks_feedback (s s1 : session) (r r1 : renderer)
    (prompt fb m : jsstring) (model : CADModel) :
  generate s prompt = (s1, Ok model) ->
  renderB renderTime kernel r model = (r1, Throw m) ->
  loadState parseJSON s1 = state s1 ->
  create prompt s r = (s1, r1, Throw m)
  /\ stateFile s1 = Some (stringify (firstProject prompt model []))
  /\ snd (iterate s1 fb)
     = Throw (lit "No renders found from previous iteration").
Proof.
  intros Hg Hr Hl. unfold action. rewrite Hg, Hr.
  destruct (generate_ok _ _ Hg) as (_ & Hs & Hf).
  repeat split; [exact Hf|]. rewrite Hs in Hl.
  refine (proj1 (Feedback.iterateModelB_no_renders parseJSON stringify
                   anthropic now parseResponse s1 fb Hl _ _));
    reflexivity.
Qed.

End Create.

Lemma create_records_one_rendered_iteration_witness :
  exists model rs,
    RevA.parseResponse TestInputs.promptA = Ok model
    /\ map view rs = map name (views model)
    /\ stateFile
         (fst (fst (action TestInputs.readUnrendered TestInputs.countIterations
                      (lit "ENOENT") (lit "TypeError")
                      (fun s => generateModelB TestInputs.countIterations
                                  (fun _ => TestInputs.promptA)
                                  Fixtures.firstStamp (lit "7f3c")
                                  RevA.parseResponse s (lit "a 20mm cube"))
                      (renderB TestInputs.clock (@Kernels.always EyeCentre))
                      TestInputs.stored TestInputs.fresh)))
       = Some (lit "1").
Proof.
  destruct (@create_records_one_rendered_iteration
              TestInputs.readUnrendered TestInputs.countIterations
              (fun _ => TestInputs.promptA) Fixtures.firstStamp (lit "7f3c")
              RevA.parseResponse (lit "ENOENT") (lit "TypeError")
              TestInputs.clock (@Kernels.always EyeCentre)
              TestInputs.stored _ TestInputs.fresh _ (lit "a 20mm cube")
              eq_refl)
    as (model & rs & H1 & H2 & H3 & _).
  - intros s1 model H. inversion H; subst. reflexivity.
  - exists model, rs. repeat split; assumption.
Defined.

Lemma failed_render_blocks_feedback_witness :
  snd (iterateModelB TestInputs.readUnrendered TestInputs.countIterations
         (fun _ => TestInputs.promptA) Fixtures.firstStamp RevA.parseResponse
         (fst (generateModelB TestInputs.countIterations
                 (fun _ => TestInputs.promptA) Fixtures.firstStamp (lit "7f3c")
                 RevA.parseResponse TestInputs.stored (lit "a 20mm cube")))
         (lit "thicker walls"))
  = Throw (lit "No renders found from previous iteration").
Proof.
  apply (@failed_render_blocks_feedback
           TestInputs.readUnrendered TestInputs.countIterations
           (fun _ => TestInputs.promptA) Fixtures.firstStamp (lit "7f3c")
           RevA.parseResponse (lit "ENOENT") (lit "TypeError")
           TestInputs.clock (@Kernels.failsSecond EyeCentre)
           TestInputs.stored _ TestInputs.fresh TestInputs.fresh
           (lit "a 20mm cube") (lit "thicker walls")
           (lit "Failed to render top: boom") TestInputs.cube);
    reflexivity.
Defined.

End Commands.
